(** * A2A samples: the task-orchestration layer

    A shallow embedding of the discovery client, the JSON-RPC server and
    client, the task managers, the two orchestrating agents and the MCP
    connector, followed by the properties stated about them.

    Conventions of the embedding.
    - Python [str] is [string]; agent names are ASCII, and [lower] is
      [str.lower] on ASCII.
    - A Python exception is a value of [exn]; code that may raise returns
      a [result].
    - A [dict] is a [gmap]; a Python object that is mutated through an
      alias (a [Task], a [list]) lives in a store and is named by its
      index there.
    - What the code gets from outside (HTTP replies, the language model,
      [uuid4]) is an explicit argument or a field of the world. *)

From Stdlib Require Import Ascii String ZArith List Lia.
From stdpp Require Import base option list gmap strings fin_maps pretty.
Import ListNotations.
Local Open Scope string_scope.
Set Warnings "-register-all".

(** ** Exceptions and results *)

Inductive exn_class :=
  | ValueError
  | IndexError
  | KeyError
  | TypeError
  | AttributeError
  | ValidationError
  | FileNotFoundError
  | JSONDecodeError
  | UnicodeDecodeError
  | HTTPError
  | A2AClientHttpError
  | A2AClientJSONError
  | RuntimeError.

Record exn := Exn { exn_cls : exn_class; exn_msg : string }.

Inductive result (A : Type) :=
  | Ok (a : A)
  | Raise (e : exn).
Arguments Ok {A} a.
Arguments Raise {A} e.

Definition bind {A B} (r : result A) (k : A -> result B) : result B :=
  match r with
  | Ok a => k a
  | Raise e => Raise e
  end.

Definition is_ok {A} (r : result A) : bool :=
  match r with Ok _ => true | Raise _ => false end.

#[global] Instance exn_class_eq_dec : EqDecision exn_class.
Proof. solve_decision. Defined.
#[global] Instance exn_eq_dec : EqDecision exn.
Proof. solve_decision. Defined.

(** ** Strings: [str.lower] and the [in] test on strings *)

Definition lower_ascii (c : ascii) : ascii :=
  let n := nat_of_ascii c in
  if (65 <=? n)%nat && (n <=? 90)%nat then ascii_of_nat (n + 32) else c.

Fixpoint lower (s : string) : string :=
  match s with
  | EmptyString => EmptyString
  | String c s' => String (lower_ascii c) (lower s')
  end.

(** [starts_with p s]: [s.startswith(p)]. *)
Fixpoint starts_with (p s : string) : bool :=
  match p, s with
  | EmptyString, _ => true
  | String _ _, EmptyString => false
  | String a p', String b s' => bool_decide (a = b) && starts_with p' s'
  end.

(** [str_in needle hay]: Python's [needle in hay] on strings. *)
Fixpoint str_in (needle hay : string) : bool :=
  starts_with needle hay ||
  match hay with
  | EmptyString => false
  | String _ hay' => str_in needle hay'
  end.

(** [s.rstrip("/")]: drop every trailing slash. *)
Fixpoint rstrip_slash (s : string) : string :=
  match s with
  | EmptyString => EmptyString
  | String c s' =>
      match rstrip_slash s' with
      | EmptyString => if bool_decide (c = "/"%char) then EmptyString else String c EmptyString
      | r => String c r
      end
  end.

(** ** models.task (the fields the code reads and writes) *)

Record TextPart := { text : string }.

Record Message := { role : string; parts : list TextPart }.

Inductive TaskState :=
  | PENDING
  | WORKING
  | INPUT_REQUIRED
  | COMPLETED
  | ERROR.

Record Task := {
  task_id : string;
  status : TaskState;
  history : list Message;
}.

#[global] Instance TextPart_eq_dec : EqDecision TextPart.
Proof. solve_decision. Defined.
#[global] Instance Message_eq_dec : EqDecision Message.
Proof. solve_decision. Defined.
#[global] Instance TaskState_eq_dec : EqDecision TaskState.
Proof. solve_decision. Defined.
#[global] Instance Task_eq_dec : EqDecision Task.
Proof. solve_decision. Defined.

(** Python's [l[-1]]. *)
Definition last_entry {A} (l : list A) : option A := last l.

(** ** models.agent *)

(** [card_id] is the attribute [id], which [AgentCard] does not declare:
    [None] when the object has no such attribute. *)
Record AgentCard := {
  card_name : string;
  card_url : string;
  card_id : option string;
}.

#[global] Instance AgentCard_eq_dec : EqDecision AgentCard.
Proof. solve_decision. Defined.

(** [getattr(c, "id", "")]. *)
Definition getattr_id (c : AgentCard) : string := default "" (card_id c).

(** ** utilities.a2a.agent_connector: the connector object *)

Record AgentConnector := {
  conn_name : string;
  conn_base_url : string;
}.

#[global] Instance AgentConnector_eq_dec : EqDecision AgentConnector.
Proof. solve_decision. Defined.

Definition connector_of (c : AgentCard) : AgentConnector :=
  {| conn_name := card_name c; conn_base_url := card_url c |}.

(** ** JSON values, as [json.load] and [response.json()] return them *)

Inductive json :=
  | JNull
  | JBool (b : bool)
  | JNum (n : Z)
  | JStr (s : string)
  | JArr (items : list json)
  | JObj (fields : list (string * json)).

Fixpoint assoc {A} (k : string) (l : list (string * A)) : option A :=
  match l with
  | [] => None
  | (k', v) :: l' => if bool_decide (k' = k) then Some v else assoc k l'
  end.

(** [j[k]] for a string key [k]. *)
Definition json_getitem (j : json) (k : string) : result json :=
  match j with
  | JObj fields =>
      match assoc k fields with
      | Some v => Ok v
      | None => Raise (Exn KeyError k)
      end
  | _ => Raise (Exn TypeError "indices must be integers or the object is not subscriptable")
  end.

(** ** models.request and models.json_rpc *)

Record TaskSendParams := {
  params_id : string;
  sessionId : string;
  message : Message;
}.

Record SendTaskRequest := {
  request_id : string;
  params : TaskSendParams;
}.

(** What the request union [A2ARequest] validates to. *)
Inductive A2ARequest :=
  | IsSendTaskRequest (r : SendTaskRequest)
  | IsOtherRequest (type_name : string).

Record JSONRPCError := {
  code : Z;
  error_message : string;
  data : option string;
}.

(** [InternalError(code=-32603, message="Internal error", data=None)]. *)
Definition InternalError (message : option string) (data : option string) : JSONRPCError :=
  {| code := -32603; error_message := default "Internal error" message; data := data |}.

(** The declarations of [models.*] that the sources use and do not
    contain: what validating a decoded value against [Task], [AgentCard]
    and the request union gives, and whether the [id] field of
    [JSONRPCResponse] admits [None] (it does not where the field is
    declared [id: str], as in a2a_level_4/models/json_rpc.py). *)
Record models := {
  Task_validate : json -> result Task;
  AgentCard_validate : json -> result AgentCard;
  A2ARequest_validate : string -> result A2ARequest;
  response_id_nullable : bool;
}.

(** ** The outside world of a client *)

(** An httpx response, by what its two methods do: [raise_for_status()]
    raises an [HTTPStatusError] with the given text or returns, and
    [json()] returns the decoded body or raises: a [JSONDecodeError] when
    the text of the body is not JSON, a [UnicodeDecodeError] when its
    bytes are not text at all. *)
Record Response := {
  raise_for_status : option string;
  json_body : result json;
}.

(** What [await client.post(...)] or [client.get(...)] does: it raises a
    transport error (an [httpx.HTTPError]: refused connection, timeout),
    raises something else, or returns a response. *)
Inductive http_outcome :=
  | TransportError (msg : string)
  | OtherFailure (e : exn)
  | Replied (r : Response).

(** The world a client runs in: the source of [uuid4], the outcome of the
    n-th POST, and the requests posted so far (latest last). *)
Record world := {
  uuid_hex : nat -> string;
  uuid_str : nat -> string;
  uuid_next : nat;
  net : nat -> http_outcome;
  posted : list (string * SendTaskRequest);
}.

Definition uuid4 (w : world) : nat * world :=
  (uuid_next w,
   {| uuid_hex := uuid_hex w; uuid_str := uuid_str w; uuid_next := S (uuid_next w);
      net := net w; posted := posted w |}).

Definition post (url : string) (r : SendTaskRequest) (w : world) : http_outcome * world :=
  (net w (length (posted w)),
   {| uuid_hex := uuid_hex w; uuid_str := uuid_str w; uuid_next := uuid_next w;
      net := net w; posted := posted w ++ [(url, r)] |}).

(** ** a2a_level_3/client/client.py *)

Module A2AClient.

(** The body of the [try] of [_send_request] on the outcome of the POST:
    the POST, the status check and the decoding of the body. *)
Definition try_body (o : http_outcome) : result json :=
  match o with
  | TransportError msg => Raise (Exn HTTPError msg)
  | OtherFailure e => Raise e
  | Replied r =>
      match raise_for_status r with
      | Some msg => Raise (Exn HTTPError msg)
      | None => json_body r
      end
  end.

(** The [try] with its two [except] clauses: [httpx.HTTPError] and
    [json.JSONDecodeError] are wrapped, anything else is not caught. *)
Definition handle_outcome (o : http_outcome) : result json :=
  match try_body o with
  | Ok j => Ok j
  | Raise e =>
      match exn_cls e with
      | HTTPError => Raise (Exn A2AClientHttpError ("HTTP error occurred: " ++ exn_msg e))
      | JSONDecodeError =>
          Raise (Exn A2AClientJSONError ("Error parsing JSON response: " ++ exn_msg e))
      | _ => Raise e
      end
  end.

Definition _send_request (base_url : string) (request : SendTaskRequest) (w : world)
  : result json * world :=
  let '(o, w1) := post base_url request w in
  (handle_outcome o, w1).

(** The task built from the entry [result] of the decoded response. *)
Definition task_of_response (M : models) (response : json) : result Task :=
  bind (json_getitem response "result") (Task_validate M).

Definition send_task (M : models) (base_url : string) (payload : TaskSendParams) (w : world)
  : result Task * world :=
  let '(n, w1) := uuid4 w in
  let request := {| request_id := uuid_hex w n; params := payload |} in
  let '(response, w2) := _send_request base_url request w1 in
  (bind response (task_of_response M), w2).

End A2AClient.

(** ** a2a_level_4/utilities/a2a/agent_connector.py *)

Module AgentConnectorM.

Definition send_task (M : models) (self : AgentConnector) (msg : string) (session_id : string)
    (w : world) : result Task * world :=
  let '(n, w1) := uuid4 w in
  let payload :=
    {| params_id := uuid_hex w n;
       sessionId := session_id;
       message := {| role := "user"; parts := [ {| text := msg |} ] |} |} in
  A2AClient.send_task M (conn_base_url self) payload w1.

(** The request [AgentConnector.send_task] posts. *)
Definition request_sent (conn : AgentConnector) (msg session_id : string) (w : world)
  : string * SendTaskRequest :=
  (conn_base_url conn,
   {| request_id := uuid_hex w (S (uuid_next w));
      params := {| params_id := uuid_hex w (uuid_next w);
                   sessionId := session_id;
                   message := {| role := "user"; parts := [ {| text := msg |} ] |} |} |}).

End AgentConnectorM.

(** ** a2a_level_4/agents/greeting_agent/agent.py *)

Module GreetingAgent.

Definition user_id : string := "greeting_user".

(** The condition of the first generator of [call_agent]. *)
Definition exact_match (agent_name : string) (c : AgentCard) : bool :=
  bool_decide (lower (card_name c) = lower agent_name)
  || bool_decide (lower (getattr_id c) = lower agent_name).

(** The condition of the fallback generator. *)
Definition substring_match (agent_name : string) (c : AgentCard) : bool :=
  str_in (lower agent_name) (lower (card_name c)).

(** The two [next(..., None)] expressions and the [raise] of [call_agent]. *)
Definition match_agent (cards : list AgentCard) (agent_name : string) : result AgentCard :=
  match List.find (exact_match agent_name) cards with
  | Some c => Ok c
  | None =>
      match List.find (substring_match agent_name) cards with
      | Some c => Ok c
      | None => Raise (Exn ValueError ("Agent '" ++ agent_name ++ "' not found."))
      end
  end.

(** The connector cache: build and store one on a miss, reuse on a hit. *)
Definition get_connector (matched : AgentCard) (connectors : gmap string AgentConnector)
  : AgentConnector * gmap string AgentConnector :=
  let key := card_name matched in
  match connectors !! key with
  | Some connector => (connector, connectors)
  | None => (connector_of matched, <[key := connector_of matched]> connectors)
  end.

(** The reply pulled out of the returned task. *)
Definition final_reply (task : Task) : string :=
  match last (history task) with
  | Some m =>
      match parts m with
      | p :: _ => text p
      | [] => ""
      end
  | None => ""
  end.

(** [call_agent], given the cards the registry query returned. *)
Definition call_agent (M : models) (cards : list AgentCard) (agent_name msg : string)
    (connectors : gmap string AgentConnector) (w : world)
  : result string * gmap string AgentConnector * world :=
  match match_agent cards agent_name with
  | Raise e => (Raise e, connectors, w)
  | Ok matched =>
      let '(connector, connectors1) := get_connector matched connectors in
      let session_id := user_id in
      let '(task, w1) := AgentConnectorM.send_task M connector msg session_id w in
      (bind task (fun t => Ok (final_reply t)), connectors1, w1)
  end.

End GreetingAgent.

(** ** a2a_level_4/agents/host_agent/orchestrator.py: OrchestratorAgent *)

Module OrchestratorAgent.

(** The loop of [__init__] over the agent cards. *)
Definition init_connectors (agent_cards : list AgentCard) : gmap string AgentConnector :=
  fold_left (fun m card => <[card_name card := connector_of card]> m) agent_cards ∅.

(** The membership test and the lookup that open [_delegate_task]. *)
Definition lookup_connector (connectors : gmap string AgentConnector) (agent_name : string)
  : result AgentConnector :=
  match connectors !! agent_name with
  | None => Raise (Exn ValueError ("Unknown agent: " ++ agent_name))
  | Some connector => Ok connector
  end.

(** The session id kept in [tool_context.state]. *)
Definition ensure_session_id (state : gmap string string) (w : world)
  : string * gmap string string * world :=
  match state !! "session_id" with
  | Some s => (s, state, w)
  | None =>
      let '(n, w1) := uuid4 w in
      (uuid_str w n, <["session_id" := uuid_str w n]> state, w1)
  end.

(** The last lines of [_delegate_task]. *)
Definition final_reply (child_task : Task) : result string :=
  if bool_decide (history child_task <> []) && (1 <? length (history child_task))%nat then
    match last (history child_task) with
    | Some m =>
        match parts m with
        | p :: _ => Ok (text p)
        | [] => Raise (Exn IndexError "list index out of range")
        end
    | None => Ok ""
    end
  else Ok "".

Definition _delegate_task (M : models) (connectors : gmap string AgentConnector)
    (agent_name msg : string) (state : gmap string string) (w : world)
  : result string * gmap string string * world :=
  match lookup_connector connectors agent_name with
  | Raise e => (Raise e, state, w)
  | Ok connector =>
      let '(session_id, state1, w1) := ensure_session_id state w in
      let '(child_task, w2) := AgentConnectorM.send_task M connector msg session_id w1 in
      (bind child_task final_reply, state1, w2)
  end.

(** The tool calls of one run of the agent, each a call of
    [_delegate_task] on the state of the running session; the results go
    back to the language model. *)
Fixpoint delegate_all (M : models) (connectors : gmap string AgentConnector)
    (calls : list (string * string)) (state : gmap string string) (w : world)
  : list (result string) * gmap string string * world :=
  match calls with
  | [] => ([], state, w)
  | (agent_name, msg) :: calls' =>
      let '(r, state1, w1) := _delegate_task M connectors agent_name msg state w in
      let '(rs, state2, w2) := delegate_all M connectors calls' state1 w1 in
      (r :: rs, state2, w2)
  end.

(** [invoke(query, session_id)] as far as the delegated calls go: the
    session of that id is fetched, or created with [state={}]; the runner
    lets the model make its tool calls ([calls], chosen by the model) on
    that session's state, which the session service keeps. *)
Definition invoke (M : models) (connectors : gmap string AgentConnector)
    (calls : list (string * string)) (session_id : string)
    (sessions : gmap string (gmap string string)) (w : world)
  : list (result string) * gmap string (gmap string string) * world :=
  let state := default ∅ (sessions !! session_id) in
  let '(rs, state1, w1) := delegate_all M connectors calls state w in
  (rs, <[session_id := state1]> sessions, w1).

(** The session id the delegated calls of a session use: the one its
    state holds, or the next value of [uuid4] when it holds none. *)
Definition session_of (state : gmap string string) (w : world) : string :=
  default (uuid_str w (uuid_next w)) (state !! "session_id").

(** The session ids of the requests posted, oldest first. *)
Definition session_ids (requests : list (string * SendTaskRequest)) : list string :=
  map (fun q => sessionId (params q.2)) requests.

End OrchestratorAgent.

(** ** The task managers *)

(** The response object of [on_send_task]; [result_task] names the task
    object in the manager's store. *)
Record SendTaskResponse := {
  response_id : string;
  result_task : nat;
}.

(** The two assignments made under the lock at the end of both
    [on_send_task] methods. *)
Definition complete_with (reply : Message) (task : Task) : Task :=
  {| task_id := task_id task; status := COMPLETED; history := history task ++ [reply] |}.

Definition agent_reply (response : string) : Message :=
  {| role := "agent"; parts := [ {| text := response |} ] |}.

(** [request.params.message.parts[0].text]. *)
Definition first_part_text (request : SendTaskRequest) : result string :=
  match parts (message (params request)) with
  | p :: _ => Ok (text p)
  | [] => Raise (Exn IndexError "list index out of range")
  end.

(** *** a2a_level_3/agents/tell_time_agent/task_manager.py *)

Module AgentTaskManager.

(** The manager: the task objects it has created, and [_tasks], which maps
    a session id to its task object. *)
Record t := {
  objs : list Task;
  _tasks : gmap string nat;
}.

Definition init : t := {| objs := []; _tasks := ∅ |}.

Definition _get_user_query (request : SendTaskRequest) : result string :=
  first_part_text request.

(** The body under the lock. The status the code builds for a new task
    is the state [PENDING]. *)
Definition upsert_task (p : TaskSendParams) (self : t) : nat * t :=
  let task_id := sessionId p in
  match _tasks self !! task_id with
  | Some task => (task, self)
  | None =>
      let task := length (objs self) in
      (task,
       {| objs := objs self ++ [ {| task_id := task_id; status := PENDING; history := [] |} ];
          _tasks := <[task_id := task]> (_tasks self) |})
  end.

(** [agent] is [self._agent.invoke]: the reply text, or the exception it
    raises. *)
Definition on_send_task (agent : string -> string -> result string)
    (request : SendTaskRequest) (self : t) : result SendTaskResponse * t :=
  let '(task, s1) := upsert_task (params request) self in
  match _get_user_query request with
  | Raise e => (Raise e, s1)
  | Ok user_query =>
      match agent user_query (sessionId (params request)) with
      | Raise e => (Raise e, s1)
      | Ok response =>
          (Ok {| response_id := request_id request; result_task := task |},
           {| objs := alter (complete_with (agent_reply response)) task (objs s1);
              _tasks := _tasks s1 |})
      end
  end.

(** The task a session id stands for. *)
Definition task_of (self : t) (sid : string) : option Task :=
  _tasks self !! sid ≫= fun l => objs self !! l.

(** The calls a manager receives. *)
Inductive call :=
  | Upsert (p : TaskSendParams)
  | SendTask (agent : string -> string -> result string) (request : SendTaskRequest).

Definition step (c : call) (self : t) : t :=
  match c with
  | Upsert p => snd (upsert_task p self)
  | SendTask agent request => snd (on_send_task agent request self)
  end.

Definition run (cs : list call) (self : t) : t := fold_left (fun s c => step c s) cs self.

(** Every task object is the one [_tasks] holds for its own session id,
    every entry of [_tasks] names a task object of that session, and a
    task is pending or completed. *)
Record consistent (tm : AgentTaskManager.t) : Prop := {
  obj_registered : forall l t, objs tm !! l = Some t -> _tasks tm !! task_id t = Some l;
  entry_allocated : forall sid l, _tasks tm !! sid = Some l ->
                                  exists t, objs tm !! l = Some t /\ task_id t = sid;
  obj_status : forall l t, objs tm !! l = Some t -> status t = PENDING \/ status t = COMPLETED;
}.

End AgentTaskManager.

(** *** a2a_level_4/agents/host_agent/orchestrator.py: OrchestratorTaskManager *)

Module OrchestratorTaskManager.

Section WithBase.

(** [upsert_task] is inherited from [InMemoryTaskManager]
    (server/task_manager.py, not among the sources): on the store of task
    objects it returns the task object of the request and the new store.
    [invoke] is [self.agent.invoke]. *)
Variable upsert_task : TaskSendParams -> list Task -> nat * list Task.
Variable invoke : string -> string -> result string.

Definition _get_user_text (request : SendTaskRequest) : result string :=
  first_part_text request.

Definition on_send_task (request : SendTaskRequest) (store : list Task)
  : result SendTaskResponse * list Task :=
  let '(task, s1) := upsert_task (params request) store in
  match _get_user_text request with
  | Raise e => (Raise e, s1)
  | Ok user_text =>
      match invoke user_text (sessionId (params request)) with
      | Raise e => (Raise e, s1)
      | Ok response_text =>
          (Ok {| response_id := request_id request; result_task := task |},
           alter (complete_with (agent_reply response_text)) task s1)
      end
  end.

End WithBase.

End OrchestratorTaskManager.


Definition edgeb (a b : TaskState) : bool :=
  match a, b with
  | PENDING, WORKING | WORKING, INPUT_REQUIRED | WORKING, COMPLETED
  | WORKING, ERROR | PENDING, ERROR | INPUT_REQUIRED, WORKING
  | PENDING, COMPLETED => true
  | _, _ => false
  end.

(** ** a2a_level_3/server/server.py *)

Module A2AServer.

(** A [JSONRPCResponse] object; [SendTaskResponse(id=..., result=task)] is
    one with [resp_result] the task. *)
Record JSONRPCResponse := {
  resp_id : option string;
  resp_result : option json;
  resp_error : option JSONRPCError;
}.

(** What [on_send_task] hands to [_create_response]. *)
Inductive handler_response :=
  | AsJSONRPCResponse (r : JSONRPCResponse)
  | AsOther (type_name : string).

(** What [handle_request] ends with: a [JSONResponse], or an exception
    that leaves the handler. *)
Inductive http_result :=
  | JSONResponse (status_code : Z) (content : json)
  | Unhandled (e : exn).

Definition opt_json {A} (f : A -> json) (o : option A) : json :=
  match o with
  | Some a => f a
  | None => JNull
  end.

Definition dump_error (e : JSONRPCError) : json :=
  JObj [("code", JNum (code e)); ("message", JStr (error_message e));
        ("data", opt_json JStr (data e))].

(** [model_dump()]: every field, [None] as null. *)
Definition model_dump (r : JSONRPCResponse) : json :=
  JObj [("jsonrpc", JStr "2.0"); ("id", opt_json JStr (resp_id r));
        ("result", opt_json id (resp_result r));
        ("error", opt_json dump_error (resp_error r))].

Definition field {A} (k : string) (f : A -> json) (o : option A) : list (string * json) :=
  match o with
  | Some a => [(k, f a)]
  | None => []
  end.

(** [model_dump(exclude_none=True)]: the fields that are [None] are left
    out. *)
Definition model_dump_exclude_none (r : JSONRPCResponse) : json :=
  JObj ([("jsonrpc", JStr "2.0")] ++ field "id" JStr (resp_id r)
        ++ field "result" id (resp_result r)
        ++ field "error" dump_error (resp_error r)).

Definition _create_response (response : handler_response) : result http_result :=
  match response with
  | AsJSONRPCResponse r => Ok (JSONResponse 200 (model_dump_exclude_none r))
  | AsOther ty => Raise (Exn ValueError ("Unsupported response type: " ++ ty))
  end.

(** The [except Exception] branch: the response object is built with
    [id=None], which raises where the field does not admit [None]. Its
    error is [InternalError(message=str(e))]; the [InternalError] with
    [data=str(e)] that the branch builds first is not used. *)
Definition on_exception (M : models) (e : exn) : http_result :=
  if response_id_nullable M then
    JSONResponse 400
      (model_dump {| resp_id := None; resp_result := None;
                     resp_error := Some (InternalError (Some (exn_msg e)) None) |})
  else Unhandled (Exn ValidationError "id: input should be a valid string").

Section WithTaskManager.

Variable TM : Type.
Variable on_send_task : SendTaskRequest -> TM -> result handler_response * TM.

Definition handle_request (M : models) (body : string) (tm : TM) : http_result * TM :=
  match A2ARequest_validate M body with
  | Raise e => (on_exception M e, tm)
  | Ok (IsOtherRequest ty) =>
      (on_exception M (Exn ValueError ("Unsupported request type: " ++ ty)), tm)
  | Ok (IsSendTaskRequest json_rpc) =>
      let '(r, tm1) := on_send_task json_rpc tm in
      match bind r _create_response with
      | Ok http => (http, tm1)
      | Raise e => (on_exception M e, tm1)
      end
  end.

End WithTaskManager.

Arguments handle_request {TM} on_send_task M body tm.

(** The envelope of the [except] branch, where it can be built. *)
Definition error_envelope (e : exn) : json :=
  JObj [("jsonrpc", JStr "2.0"); ("id", JNull); ("result", JNull);
        ("error", JObj [("code", JNum (-32603)); ("message", JStr (exn_msg e));
                        ("data", JNull)])].

(** What is sent for a request whose handling raised [e]: nothing but a
    validation error where the response id is declared [id: str], the
    error envelope where it admits [None]. *)
Definition answered_without_id (M : models) (e : exn) (h : http_result) : Prop :=
  if response_id_nullable M then h = JSONResponse 400 (error_envelope e)
  else h = Unhandled (Exn ValidationError "id: input should be a valid string").

(** The correlation id a decoded response envelope carries. *)
Definition envelope_id (content : json) : option string :=
  match json_getitem content "id" with
  | Ok (JStr s) => Some s
  | _ => None
  end.

Definition response_envelope_id (h : http_result) : option string :=
  match h with
  | JSONResponse _ content => envelope_id content
  | Unhandled _ => None
  end.

(** The server of the tell-time agent: [AgentTaskManager] behind
    [handle_request]; [dump] is [Task]'s serialisation. *)
Definition tell_time_on_send_task (dump : Task -> json)
    (agent : string -> string -> result string)
    (request : SendTaskRequest) (tm : AgentTaskManager.t)
  : result handler_response * AgentTaskManager.t :=
  let '(r, tm1) := AgentTaskManager.on_send_task agent request tm in
  (bind r (fun resp =>
     Ok (AsJSONRPCResponse
           {| resp_id := Some (response_id resp);
              resp_result := dump <$> (AgentTaskManager.objs tm1 !! result_task resp);
              resp_error := None |})),
   tm1).

End A2AServer.

(** ** a2a_level_3/utilities/discovery.py *)

Module DiscoveryClient.

(** [_load_registry] on what opening and decoding the registry file
    gives. *)
Definition _load_registry (file : result json) : result (list json) :=
  match file with
  | Ok (JArr urls) => Ok urls
  | Ok _ => Ok []
  | Raise e =>
      match exn_cls e with
      | FileNotFoundError | JSONDecodeError | UnicodeDecodeError | ValueError => Ok []
      | _ => Raise e
      end
  end.

(** The body of the [try] for one source, on the outcome of the GET. *)
Definition card_of_outcome (M : models) (o : http_outcome) : option AgentCard :=
  match o with
  | Replied r =>
      match raise_for_status r, json_body r with
      | None, Ok d =>
          match AgentCard_validate M d with
          | Ok agent => Some agent
          | Raise _ => None
          end
      | _, _ => None
      end
  | _ => None
  end.

Definition well_known (base_url : string) : string :=
  rstrip_slash base_url ++ "/.well-known/agent.json".

(** The loop of [list_agent_card]; [get i url] is the outcome of the GET
    the [i]-th iteration sends to [url]. *)
Fixpoint discover_from (M : models) (get : nat -> string -> http_outcome) (i : nat)
    (base_urls : list json) (agent_card : list AgentCard) : result (list AgentCard) :=
  match base_urls with
  | [] => Ok agent_card
  | JStr base_url :: rest =>
      match card_of_outcome M (get i (well_known base_url)) with
      | Some agent => discover_from M get (S i) rest (agent_card ++ [agent])
      | None => discover_from M get (S i) rest agent_card
      end
  | _ :: _ => Raise (Exn AttributeError "object has no attribute 'rstrip'")
  end.

Definition list_agent_card (M : models) (get : nat -> string -> http_outcome)
    (base_urls : list json) : result (list AgentCard) :=
  discover_from M get 0 base_urls [].

(** [DiscoveryClient(registry_file).list_agent_card()]. *)
Definition discover (M : models) (get : nat -> string -> http_outcome) (file : result json)
  : result (list AgentCard) :=
  bind (_load_registry file) (list_agent_card M get).

(** The outcomes of the GETs of [list_agent_card] over a list of URLs, in
    source order: the [i]-th goes to the metadata URL of the [i]-th
    source. *)
Fixpoint queried_from (get : nat -> string -> http_outcome) (i : nat) (urls : list string)
  : list http_outcome :=
  match urls with
  | [] => []
  | u :: rest => get i (well_known u) :: queried_from get (S i) rest
  end.

Definition queried (get : nat -> string -> http_outcome) (urls : list string)
  : list http_outcome :=
  queried_from get 0 urls.

End DiscoveryClient.

(** ** a2a_level_4/utilities/mcp/mcp_connector.py *)

Module MCPConnector.

Record MCPTool := {
  tool_name : string;
  tool_description : string;
  input_schema : json;
  server_cmd : string;
  server_args : list string;
}.

(** The Python list objects: a list is named by its index in the store. *)
Definition store := list (list MCPTool).

(** The connector object: [tools] names its list. *)
Record t := { tools : nat }.

(** A configured server, with what listing its tools gives ([None]: the
    session or the listing raised). *)
Record server := {
  srv_cmd : string;
  srv_args : list string;
  srv_listing : option (list (string * string * json));
}.

Definition tools_of_server (s : server) : list MCPTool :=
  match srv_listing s with
  | Some decls =>
      map (fun d => {| tool_name := d.1.1; tool_description := d.1.2; input_schema := d.2;
                       server_cmd := srv_cmd s; server_args := srv_args s |}) decls
  | None => []
  end.

(** [__init__]: a new empty list, filled by [_load_all_tools]. *)
Definition init (servers : list server) (h : store) : t * store :=
  ({| tools := length h |}, (h ++ [concat (map tools_of_server servers)])%list).

(** [get_tools]: [self.tools.copy()] makes a new list object. *)
Definition get_tools (self : t) (h : store) : option (nat * store) :=
  match h !! tools self with
  | Some l => Some (length h, (h ++ [l])%list)
  | None => None
  end.

(** The variant that would hand out the list itself. *)
Definition get_tools_alias (self : t) (h : store) : option (nat * store) :=
  match h !! tools self with
  | Some _ => Some (tools self, h)
  | None => None
  end.

(** In-place operations of a Python list. *)
Inductive list_op :=
  | Append (x : MCPTool)
  | Insert (i : nat) (x : MCPTool)
  | Pop (i : nat)
  | Reverse
  | Clear
  | SetItem (i : nat) (x : MCPTool).

Definition apply_op (o : list_op) (l : list MCPTool) : list MCPTool :=
  match o with
  | Append x => (l ++ [x])%list
  | Insert i x => (take i l ++ x :: drop i l)%list
  | Pop i => delete i l
  | Reverse => reverse l
  | Clear => []
  | SetItem i x => <[i := x]> l
  end.

(** The operation [o] on the list object [r]. *)
Definition mutate (r : nat) (h : store) (o : list_op) : store :=
  alter (apply_op o) r h.

End MCPConnector.

(** ** The resolution order, in the words of the specification *)

Module ResolveSpec.

(** Exact match, regardless of case, on the name or the identifier. *)
Definition exact (name : string) (c : AgentCard) : Prop :=
  lower (card_name c) = lower name \/ lower (getattr_id c) = lower name.

(** The input occurs, regardless of case, inside the registered name. *)
Definition within (name : string) (c : AgentCard) : Prop :=
  exists pre post, lower (card_name c) = pre ++ lower name ++ post.

(** [c] is the first card, in registration order, that satisfies [P]. *)
Definition first_such (P : AgentCard -> Prop) (cards : list AgentCard) (c : AgentCard) : Prop :=
  exists before after,
    cards = (before ++ c :: after)%list /\ P c /\ Forall (fun x => ~ P x) before.

(** The handler a name resolves to; [None] is the unknown-capability
    error. *)
Inductive resolves (cards : list AgentCard) (name : string) : option AgentCard -> Prop :=
  | by_exact c :
      first_such (exact name) cards c -> resolves cards name (Some c)
  | by_substring c :
      Forall (fun x => ~ exact name x) cards ->
      first_such (within name) cards c -> resolves cards name (Some c)
  | unknown :
      Forall (fun x => ~ exact name x) cards ->
      Forall (fun x => ~ within name x) cards -> resolves cards name None.

End ResolveSpec.

(** ** Discovery, in the words of the specification *)

Module DiscoverySpec.

(** A source fails when it is unreachable (the GET raises), when it
    answers with a status that is not a success, when its body does not
    decode, or when the decoded body is not a valid descriptor. *)
Inductive fails (M : models) : http_outcome -> Prop :=
  | fails_unreachable msg : fails M (TransportError msg)
  | fails_get e : fails M (OtherFailure e)
  | fails_status r msg : raise_for_status r = Some msg -> fails M (Replied r)
  | fails_body r e :
      raise_for_status r = None -> json_body r = Raise e -> fails M (Replied r)
  | fails_descriptor r d e :
      raise_for_status r = None -> json_body r = Ok d ->
      AgentCard_validate M d = Raise e -> fails M (Replied r).

(** A source is parsed to the descriptor [c] when it answers with a
    success status and a body that decodes and validates to [c]. *)
Inductive parsed (M : models) : http_outcome -> AgentCard -> Prop :=
  | parsed_descriptor r d c :
      raise_for_status r = None -> json_body r = Ok d ->
      AgentCard_validate M d = Ok c -> parsed M (Replied r) c.

(** [discovered M outcomes cards k]: of the sources with these outcomes,
    [k] fail, and [cards] are the descriptors of the others, in source
    order. *)
Inductive discovered (M : models) : list http_outcome -> list AgentCard -> nat -> Prop :=
  | discovered_nil : discovered M [] [] 0
  | discovered_skip o os cs k :
      fails M o -> discovered M os cs k -> discovered M (o :: os) cs (S k)
  | discovered_keep o c os cs k :
      parsed M o c -> discovered M os cs k -> discovered M (o :: os) (c :: cs) k.

End DiscoverySpec.

Definition handler {A} (r : result A) : option A :=
  match r with
  | Ok a => Some a
  | Raise _ => None
  end.

(** ** a2a_level_1/a2a_server/time_server.py and client/time_client.py *)

Module TimeServer.

(** [j.get(k)]: only a dict has the method. *)
Definition json_get (j : json) (k : string) : result json :=
  match j with
  | JObj fields => Ok (default JNull (assoc k fields))
  | _ => Raise (Exn AttributeError "object has no attribute 'get'")
  end.

(** [j[0]]. *)
Definition json_first (j : json) : result json :=
  match j with
  | JArr (x :: _) => Ok x
  | JArr [] => Raise (Exn IndexError "list index out of range")
  | JObj _ => Raise (Exn KeyError "0")
  | JStr (String c _) => Ok (JStr (String c ""))
  | JStr EmptyString => Raise (Exn IndexError "string index out of range")
  | _ => Raise (Exn TypeError "object is not subscriptable")
  end.

(** [j[-1]]. *)
Definition json_last (j : json) : result json :=
  match j with
  | JArr l =>
      match last l with
      | Some x => Ok x
      | None => Raise (Exn IndexError "list index out of range")
      end
  | JObj _ => Raise (Exn KeyError "-1")
  | JStr s =>
      match last (list_ascii_of_string s) with
      | Some c => Ok (JStr (String c ""))
      | None => Raise (Exn IndexError "string index out of range")
      end
  | _ => Raise (Exn TypeError "object is not subscriptable")
  end.

(** What a Flask view ends with: a JSON response, or an exception that
    leaves the view. *)
Inductive view_result :=
  | Jsonify (status_code : Z) (body : json)
  | Escapes (e : exn).

(** The body of the [try]: the task id and the text of the first part. *)
Definition read_task (task : json) : result (json * json) :=
  bind (json_get task "id") (fun task_id =>
  bind (json_getitem task "message") (fun msg =>
  bind (json_getitem msg "parts") (fun ps =>
  bind (json_first ps) (fun p =>
  bind (json_getitem p "text") (fun user_message =>
  Ok (task_id, user_message)))))).

(** [except (KeyError, TypeError, IndexError)]. *)
Definition is_caught (e : exn) : bool :=
  match exn_cls e with
  | KeyError | TypeError | IndexError => true
  | _ => false
  end.

Definition agent_message (response_message : string) : json :=
  JObj [("role", JStr "agent"); ("parts", JArr [JObj [("text", JStr response_message)]])].

(** [handle_task] on the decoded body of the request; [now] is
    [datetime.now()] in the format of the code. *)
Definition handle_task (now : string) (task : json) : view_result :=
  match read_task task with
  | Raise e =>
      if is_caught e then Jsonify 400 (JObj [("error", JStr "Invalid task format")])
      else Escapes e
  | Ok (task_id, _) =>
      let response_message := "The current time is: " ++ now in
      match json_getitem task "message" with
      | Raise e => Escapes e
      | Ok msg =>
          Jsonify 200
            (JObj [("task_id", task_id);
                   ("status", JObj [("state", JStr "completed")]);
                   ("messages", JArr [msg; agent_message response_message])])
      end
  end.

(** Truth value of a decoded JSON value. *)
Definition truthy (j : json) : bool :=
  match j with
  | JNull => false
  | JBool b => b
  | JNum n => negb (n =? 0)%Z
  | JStr s => negb (bool_decide (s = ""))
  | JArr l => negb (bool_decide (length l = 0%nat))
  | JObj f => negb (bool_decide (length f = 0%nat))
  end.

(** What the client script does with the answer to its POST. *)
Inductive client_result :=
  | Says (time_reply : json)
  | NoResponse
  | FailedToSendTask
  | Crashes (e : exn).

(** The end of time_client.py, from the status check on. *)
Definition read_reply (status_code : Z) (reply : json) : client_result :=
  if negb (status_code =? 200)%Z then FailedToSendTask
  else if truthy reply then
    match bind (json_getitem reply "messages") (fun ms =>
          bind (json_last ms) (fun m =>
          bind (json_getitem m "parts") (fun ps =>
          bind (json_first ps) (fun p => json_getitem p "text")))) with
    | Ok time_reply => Says time_reply
    | Raise e => Crashes e
    end
  else NoResponse.

(** A task the server accepts: an object whose [message] is an object
    whose [parts] is a list that starts with an object holding [text]. *)
Definition well_formed (fields : list (string * json)) : Prop :=
  exists mfields pfields ps t,
    assoc "message" fields = Some (JObj mfields)
    /\ assoc "parts" mfields = Some (JArr (JObj pfields :: ps))
    /\ assoc "text" pfields = Some t.

End TimeServer.

(** ** a2a_level_4/utilities/mcp/mcp_discovery.py *)

Module MCPDiscovery.

(** [_load_config] on what opening and decoding the config file gives;
    the result is the items of the dict it returns. *)
Definition _load_config (file : result json) : result (list (string * json)) :=
  match file with
  | Ok (JObj config) => Ok config
  | Ok _ => Ok []
  | Raise e =>
      match exn_cls e with
      | FileNotFoundError | JSONDecodeError | UnicodeDecodeError | ValueError => Ok []
      | _ => Raise e
      end
  end.

(** [self.config.get('mcpServers', {})]: whatever value the key holds. *)
Definition list_servers (config : list (string * json)) : json :=
  default (JObj []) (assoc "mcpServers" config).

End MCPDiscovery.

(** ** mcp_connector.py: loading the tools from the configured servers *)

Module MCPLoader.

Import MCPConnector.

Section WithServers.

(** From the mcp library: [server_parameters cmd args] is what building
    [StdioServerParameters(command=cmd, args=args)] gives (the command
    and arguments, or the validation error), and [list_tools cmd args] is
    what the [try] block obtains from the server started that way: the
    declared tools (name, description, input schema), or [None] when
    anything in the block raises before the tools are appended. *)
Variable server_parameters : json -> json -> result (string * list string).
Variable list_tools : string -> list string -> option (list (string * string * json)).

Definition wrap (cmd : string) (args : list string) (d : string * string * json) : MCPTool :=
  {| tool_name := d.1.1; tool_description := d.1.2; input_schema := d.2;
     server_cmd := cmd; server_args := args |}.

(** The loop of [_fetch] over [servers.items()]; [tools] is [self.tools]. *)
Fixpoint fetch_from (servers : list (string * json)) (tools : list MCPTool)
  : result (list MCPTool) :=
  match servers with
  | [] => Ok tools
  | (name, JObj info) :: rest =>
      let cmd := default JNull (assoc "command" info) in
      let args := default (JArr []) (assoc "args" info) in
      match server_parameters cmd args with
      | Raise e => Raise e
      | Ok (c, a) =>
          match list_tools c a with
          | Some tool_list => fetch_from rest (tools ++ map (wrap c a) tool_list)
          | None => fetch_from rest tools
          end
      end
  | (name, _) :: rest => Raise (Exn AttributeError "object has no attribute 'get'")
  end.

(** [_load_all_tools] on what [list_servers()] returned. *)
Definition _load_all_tools (servers : json) : result (list MCPTool) :=
  match servers with
  | JObj items => fetch_from items []
  | _ => Raise (Exn AttributeError "object has no attribute 'items'")
  end.

(** [MCPConnector(config_file).tools], from the content of the file. *)
Definition connector_tools (file : result json) : result (list MCPTool) :=
  bind (MCPDiscovery._load_config file)
       (fun config => _load_all_tools (MCPDiscovery.list_servers config)).

(** A server entry the loop gets through: an object whose command and
    arguments make valid server parameters. *)
Definition usable (entry : string * json) : Prop :=
  exists info c a,
    entry.2 = JObj info
    /\ server_parameters (default JNull (assoc "command" info))
                         (default (JArr []) (assoc "args" info)) = Ok (c, a).

(** The tools one server entry contributes, written out: for every tool
    its server declares, in the order of the listing, a tool of that
    name, description and input schema that carries the command and the
    arguments the server is started with; none when the listing fails. *)
Definition tools_of_entry (entry : string * json) : list MCPTool :=
  match entry.2 with
  | JObj info =>
      match server_parameters (default JNull (assoc "command" info))
                              (default (JArr []) (assoc "args" info)) with
      | Ok (c, a) =>
          match list_tools c a with
          | Some tool_list =>
              map (fun '(name, description, schema) =>
                     {| tool_name := name; tool_description := description;
                        input_schema := schema; server_cmd := c; server_args := a |})
                  tool_list
          | None => []
          end
      | Raise _ => []
      end
  | _ => []
  end.

End WithServers.

End MCPLoader.

(** ** a2a_level_4/utilities/mcp/filesystem_server.py *)

Module FilesystemServer.

Record TextContent := { content_type : string; content_text : string }.

Definition text_content (t : string) : TextContent :=
  {| content_type := "text"; content_text := t |}.

(** The operating system under the tool calls: a state [FS] and what
    the functions of [os], [os.path], [shutil] and [open] that the code
    calls do on it. The tests and reads leave the state as it is; the
    others return the new state, also when they raise. *)
Record os (FS : Type) := {
  path_exists : string -> FS -> bool;
  path_isdir : string -> FS -> bool;
  path_dirname : string -> string;
  path_join : string -> string -> string;
  read_text : string -> FS -> result string;
  write_text : string -> string -> FS -> result unit * FS;
  makedirs : string -> FS -> result unit * FS;
  listdir : string -> FS -> result (list string);
  getsize : string -> FS -> result nat;
  rmtree : string -> FS -> result unit * FS;
  remove : string -> FS -> result unit * FS;
}.

Arguments path_exists {FS} o _ _.
Arguments path_isdir {FS} o _ _.
Arguments path_dirname {FS} o _.
Arguments path_join {FS} o _ _.
Arguments read_text {FS} o _ _.
Arguments write_text {FS} o _ _ _.
Arguments makedirs {FS} o _ _.
Arguments listdir {FS} o _ _.
Arguments getsize {FS} o _ _.
Arguments rmtree {FS} o _ _.
Arguments remove {FS} o _ _.

Definition newline : string := String (ascii_of_nat 10) "".

Section WithOS.

Context {FS : Type} (O : os FS).

(** [arguments[k]]; the text of a [KeyError] is the key in quotes. *)
Definition argument (arguments : gmap string string) (k : string) : result string :=
  match arguments !! k with
  | Some v => Ok v
  | None => Raise (Exn KeyError ("'" ++ k ++ "'"))
  end.

(** The loop of [list_directory] over [os.listdir(path)]. *)
Fixpoint list_items (path : string) (names : list string) (fs : FS) : result (list string) :=
  match names with
  | [] => Ok []
  | item :: rest =>
      let item_path := path_join O path item in
      if path_isdir O item_path fs then
        bind (list_items path rest fs) (fun items => Ok (("[DIR]  " ++ item) :: items))
      else
        bind (getsize O item_path fs) (fun size =>
        bind (list_items path rest fs) (fun items =>
        Ok (("[FILE] " ++ item ++ " (" ++ pretty size ++ " bytes)") :: items)))
  end.

(** The [try] block of [call_tool]. *)
Definition call_tool_body (name : string) (arguments : gmap string string) (fs : FS)
  : result (list TextContent) * FS :=
  if bool_decide (name = "read_file") then
    match argument arguments "path" with
    | Raise e => (Raise e, fs)
    | Ok path =>
        if negb (path_exists O path fs) then
          (Ok [text_content ("Error: File '" ++ path ++ "' does not exist")], fs)
        else (bind (read_text O path fs) (fun content => Ok [text_content content]), fs)
    end
  else if bool_decide (name = "write_file") then
    match argument arguments "path" with
    | Raise e => (Raise e, fs)
    | Ok path =>
        match argument arguments "content" with
        | Raise e => (Raise e, fs)
        | Ok content =>
            match makedirs O (path_dirname O path) fs with
            | (Raise e, fs1) => (Raise e, fs1)
            | (Ok _, fs1) =>
                match write_text O path content fs1 with
                | (Raise e, fs2) => (Raise e, fs2)
                | (Ok _, fs2) =>
                    (Ok [text_content ("Successfully wrote to '" ++ path ++ "'")], fs2)
                end
            end
        end
    end
  else if bool_decide (name = "list_directory") then
    match argument arguments "path" with
    | Raise e => (Raise e, fs)
    | Ok path =>
        if negb (path_exists O path fs) then
          (Ok [text_content ("Error: Directory '" ++ path ++ "' does not exist")], fs)
        else if negb (path_isdir O path fs) then
          (Ok [text_content ("Error: '" ++ path ++ "' is not a directory")], fs)
        else
          (bind (listdir O path fs) (fun names =>
           bind (list_items path names fs) (fun items =>
           Ok [text_content (String.concat newline items)])), fs)
    end
  else if bool_decide (name = "create_directory") then
    match argument arguments "path" with
    | Raise e => (Raise e, fs)
    | Ok path =>
        match makedirs O path fs with
        | (Raise e, fs1) => (Raise e, fs1)
        | (Ok _, fs1) =>
            (Ok [text_content ("Successfully created directory '" ++ path ++ "'")], fs1)
        end
    end
  else if bool_decide (name = "delete_file") then
    match argument arguments "path" with
    | Raise e => (Raise e, fs)
    | Ok path =>
        if negb (path_exists O path fs) then
          (Ok [text_content ("Error: Path '" ++ path ++ "' does not exist")], fs)
        else if path_isdir O path fs then
          match rmtree O path fs with
          | (Raise e, fs1) => (Raise e, fs1)
          | (Ok _, fs1) =>
              (Ok [text_content ("Successfully deleted directory '" ++ path ++ "'")], fs1)
          end
        else
          match remove O path fs with
          | (Raise e, fs1) => (Raise e, fs1)
          | (Ok _, fs1) =>
              (Ok [text_content ("Successfully deleted file '" ++ path ++ "'")], fs1)
          end
    end
  else (Ok [text_content ("Unknown tool: " ++ name)], fs).

(** [call_tool]: the [try] block under [except Exception]. *)
Definition call_tool (name : string) (arguments : gmap string string) (fs : FS)
  : list TextContent * FS :=
  match call_tool_body name arguments fs with
  | (Ok contents, fs1) => (contents, fs1)
  | (Raise e, fs1) => ([text_content ("Error: " ++ exn_msg e)], fs1)
  end.

(** The line of a directory entry, as [list_directory] prints it. *)
Definition entry_line (path : string) (fs : FS) (item : string) : string :=
  if path_isdir O (path_join O path item) fs then "[DIR]  " ++ item
  else
    match getsize O (path_join O path item) fs with
    | Ok size => "[FILE] " ++ item ++ " (" ++ pretty size ++ " bytes)"
    | Raise _ => ""
    end.

End WithOS.

(** The names of the tools the server declares in [list_tools]. *)
Definition tool_names : list string :=
  ["read_file"; "write_file"; "list_directory"; "create_directory"; "delete_file"].

End FilesystemServer.

(** ** a2a_level_5/agent/agent.py *)

Module StreamingAgent.

(** The last message of an item of [graph.stream], by the two tests the
    loop makes: an AI message with tool calls, a tool message, or
    anything else. *)
Inductive last_message :=
  | AIToolCalls
  | ToolResult
  | OtherMessage.

(** [state.values.get("structured_response")]: a [ResponseFormat] with
    its status and message, or something else. *)
Inductive structured :=
  | ResponseFormat (status message : string)
  | NotAResponseFormat.

(** The dicts the agent yields. *)
Record event := {
  is_task_complete : bool;
  require_user_input : bool;
  content : string;
}.

Definition _final_response (s : structured) : event :=
  let fallback :=
    {| is_task_complete := false; require_user_input := true;
       content := "Unable to process your request at the moment. Please try again." |} in
  match s with
  | ResponseFormat status message =>
      if bool_decide (status = "completed") then
        {| is_task_complete := true; require_user_input := false; content := message |}
      else if bool_decide (status = "input_required") || bool_decide (status = "error") then
        {| is_task_complete := false; require_user_input := true; content := message |}
      else fallback
  | NotAResponseFormat => fallback
  end.

(** What the loop of [stream] yields for one item. *)
Definition progress (m : last_message) : option event :=
  match m with
  | AIToolCalls =>
      Some {| is_task_complete := false; require_user_input := false;
              content := "Looking up the current time..." |}
  | ToolResult =>
      Some {| is_task_complete := false; require_user_input := false;
              content := "Processing the time result..." |}
  | OtherMessage => None
  end.

(** The events [stream] yields when the graph runs through [items] and
    ends with the structured response [s]. *)
Definition stream (items : list last_message) (s : structured) : list event :=
  (omap progress items ++ [_final_response s])%list.

End StreamingAgent.

(** ** a2a_level_5/agent/agent_executor.py *)

Module TellTimeAgentExecutor.

Import StreamingAgent.

Inductive task_state :=
  | submitted
  | working
  | input_required
  | completed
  | canceled
  | failed
  | rejected
  | auth_required
  | unknown.

Record task_ref := { id : string; contextId : string }.

(** What the executor puts on the event queue. *)
Inductive queue_event :=
  | NewTask (task : task_ref)
  | ArtifactUpdate (taskId ctxId : string) (name description text : string)
      (append lastChunk : bool)
  | StatusUpdate (taskId ctxId : string) (state : task_state) (message : option string)
      (final : bool).

(** The request context: the user's input, whether there is a message,
    and the current task if there is one. *)
Record RequestContext := {
  user_input : string;
  has_message : bool;
  current_task : option task_ref;
}.

Inductive outcome :=
  | Returns
  | NoMessageProvided.

(** The body of the loop of [execute] for one event of the agent. *)
Definition on_event (task : task_ref) (e : event) : list queue_event :=
  if is_task_complete e then
    [ ArtifactUpdate (id task) (contextId task) "current_result"
        "Result of request to agent." (content e) false true;
      StatusUpdate (id task) (contextId task) completed None true ]
  else if require_user_input e then
    [ StatusUpdate (id task) (contextId task) input_required (Some (content e)) true ]
  else
    [ StatusUpdate (id task) (contextId task) working (Some (content e)) false ].

(** [execute]: [new_task] is the task [a2a.utils.new_task] makes of the
    message, [agent_stream query context_id] the events the agent
    yields, [queue] the events enqueued so far. *)
Definition execute (new_task : task_ref) (agent_stream : string -> string -> list event)
    (context : RequestContext) (queue : list queue_event) : outcome * list queue_event :=
  let query := user_input context in
  if negb (has_message context) then (NoMessageProvided, queue)
  else
    let '(task, queue1) :=
      match current_task context with
      | Some task => (task, queue)
      | None => (new_task, (queue ++ [NewTask new_task])%list)
      end in
    (Returns, (queue1 ++ concat (map (on_event task) (agent_stream query (contextId task))))%list).

Definition is_final (e : queue_event) : bool :=
  match e with
  | StatusUpdate _ _ _ _ final => final
  | _ => false
  end.

(** A status update that tells of work in progress on [task]. *)
Definition is_working_update (task : task_ref) (e : queue_event) : Prop :=
  exists text, e = StatusUpdate (id task) (contextId task) working (Some text) false.

End TellTimeAgentExecutor.

(** ** The lines that end [invoke] in adk_agent.py, orchestrator.py and
    the greeting agent *)

Module RunnerReply.

(** An event of the runner: its content, if any, as the texts of its
    parts ([None] for a part without text). *)
Record Event := { event_parts : option (list (option string)) }.

Definition has_text (t : option string) : option string :=
  match t with
  | Some s => if bool_decide (s = "") then None else Some s
  | None => None
  end.

Definition line_feed : string := String (ascii_of_nat 10) "".

(** The reply made of the events the runner produced. *)
Definition reply_of (events : list Event) : string :=
  match last events with
  | None => ""
  | Some e =>
      match event_parts e with
      | None | Some [] => ""
      | Some ps => String.concat line_feed (omap has_text ps)
      end
  end.

End RunnerReply.

(** ** The task of a session, read off the calls a manager has served *)

Module TaskHistory.

Import AgentTaskManager.

(** The session a call is about. *)
Definition session (c : call) : string :=
  match c with
  | Upsert p => sessionId p
  | SendTask _ request => sessionId (params request)
  end.

(** The reply a call adds to the history of its session: the agent's
    answer to the first part of the message, when there is such a part
    and the agent returns. *)
Definition reply (c : call) : option string :=
  match c with
  | Upsert _ => None
  | SendTask agent request =>
      match first_part_text request with
      | Ok query => handler (agent query (sessionId (params request)))
      | Raise _ => None
      end
  end.

(** The replies given in session [sid], oldest first. *)
Definition replies (cs : list call) (sid : string) : list string :=
  omap (fun c => if bool_decide (session c = sid) then reply c else None) cs.

(** Whether some call was about session [sid]. *)
Definition seen (cs : list call) (sid : string) : bool :=
  existsb (fun c => bool_decide (session c = sid)) cs.

Definition fresh (sid : string) : Task :=
  {| task_id := sid; status := PENDING; history := [] |}.

(** The task of session [sid] after the calls [cs]. *)
Definition task_after (cs : list call) (sid : string) : option Task :=
  if seen cs sid then
    Some {| task_id := sid;
            status := match replies cs sid with [] => PENDING | _ => COMPLETED end;
            history := map agent_reply (replies cs sid) |}
  else None.

End TaskHistory.

(** ** Between a connector and a server *)

Module Wire.

(** [n] slashes. *)
Fixpoint slashes (n : nat) : string :=
  match n with
  | O => ""
  | S n' => String "/" (slashes n')
  end.

(** The network hands a 200 response of the server to the client as it
    is: the status check passes and the body decodes to the content the
    server sent. Of any other answer nothing is said. *)
Definition carried (h : A2AServer.http_result) (o : http_outcome) : Prop :=
  match h with
  | A2AServer.JSONResponse 200 content =>
      o = Replied {| raise_for_status := None; json_body := Ok content |}
  | _ => True
  end.

End Wire.

(** ** Concrete inputs for the examples *)

Module Demo.

Definition tell_time_card : AgentCard :=
  {| card_name := "TellTimeAgent"; card_url := "http://localhost:10000"; card_id := None |}.

Definition translator_card : AgentCard :=
  {| card_name := "Translator"; card_url := "http://localhost:10001"; card_id := None |}.

(** A decoder for the wire form of a task, standing for [Task]'s
    validation in the examples. *)
Definition text_part_of (j : json) : option TextPart :=
  match j with
  | JObj f =>
      match assoc "text" f with
      | Some (JStr s) => Some {| text := s |}
      | _ => None
      end
  | _ => None
  end.

Definition message_of (j : json) : option Message :=
  match j with
  | JObj f =>
      match assoc "role" f, assoc "parts" f with
      | Some (JStr r), Some (JArr ps) =>
          ps' ← mapM text_part_of ps; Some {| role := r; parts := ps' |}
      | _, _ => None
      end
  | _ => None
  end.

Definition state_of (s : string) : option TaskState :=
  if bool_decide (s = "pending") then Some PENDING
  else if bool_decide (s = "working") then Some WORKING
  else if bool_decide (s = "input_required") then Some INPUT_REQUIRED
  else if bool_decide (s = "completed") then Some COMPLETED
  else if bool_decide (s = "error") then Some ERROR
  else None.

Definition task_of (j : json) : result Task :=
  match j with
  | JObj f =>
      match assoc "id" f, assoc "status" f, assoc "history" f with
      | Some (JStr i), Some (JObj st), Some (JArr h) =>
          match assoc "state" st ≫= (fun s => match s with JStr s => state_of s | _ => None end),
                mapM message_of h with
          | Some s, Some h' => Ok {| task_id := i; status := s; history := h' |}
          | _, _ => Raise (Exn ValidationError "Task")
          end
      | _, _, _ => Raise (Exn ValidationError "Task")
      end
  | _ => Raise (Exn TypeError "argument after ** must be a mapping")
  end.

Definition card_of (j : json) : result AgentCard :=
  match j with
  | JObj f =>
      match assoc "name" f, assoc "url" f with
      | Some (JStr n), Some (JStr u) => Ok {| card_name := n; card_url := u; card_id := None |}
      | _, _ => Raise (Exn ValidationError "AgentCard")
      end
  | _ => Raise (Exn TypeError "argument after ** must be a mapping")
  end.

Definition message_json (m : Message) : json :=
  JObj [("role", JStr (role m));
        ("parts", JArr (map (fun p => JObj [("type", JStr "text"); ("text", JStr (text p))])
                            (parts m)))].

Definition state_name (s : TaskState) : string :=
  match s with
  | PENDING => "pending"
  | WORKING => "working"
  | INPUT_REQUIRED => "input_required"
  | COMPLETED => "completed"
  | ERROR => "error"
  end.

Definition task_json (t : Task) : json :=
  JObj [("id", JStr (task_id t)); ("status", JObj [("state", JStr (state_name (status t)))]);
        ("history", JArr (map message_json (history t)))].

Definition user_says (s : string) : Message := {| role := "user"; parts := [ {| text := s |} ] |}.

Definition request_of (rid sid : string) (m : Message) : SendTaskRequest :=
  {| request_id := rid; params := {| params_id := rid; sessionId := sid; message := m |} |}.

(** The request bodies the examples send, by name. *)
Definition request_of_body (body : string) : result A2ARequest :=
  if bool_decide (body = "ask-time") then
    Ok (IsSendTaskRequest (request_of "req-1" "s1" (user_says "What time is it?")))
  else if bool_decide (body = "no-parts") then
    Ok (IsSendTaskRequest (request_of "req-2" "s1" {| role := "user"; parts := [] |}))
  else if bool_decide (body = "get-task") then Ok (IsOtherRequest "GetTaskRequest")
  else Raise (Exn ValidationError "A2ARequest").

Definition models_with (nullable : bool) : models :=
  {| Task_validate := task_of; AgentCard_validate := card_of;
     A2ARequest_validate := request_of_body; response_id_nullable := nullable |}.

Definition demo_models : models := models_with false.

(** The success reply of a task-send endpoint carrying the task [t]. *)
Definition reply_with (t : Task) : http_outcome :=
  Replied {| raise_for_status := None;
             json_body := Ok (JObj [("jsonrpc", JStr "2.0"); ("id", JStr "r");
                                    ("result", task_json t)]) |}.

(** An inherited [upsert_task] that does what the docstring of the
    orchestrator's handler says, saving the incoming message: the task of
    a known session gets the message appended, an unseen session gets a
    pending task whose history is the message. *)
Fixpoint index_of_session (sid : string) (store : list Task) (i : nat) : option nat :=
  match store with
  | [] => None
  | t :: rest => if bool_decide (task_id t = sid) then Some i
                 else index_of_session sid rest (S i)
  end.

Definition storing_upsert (p : TaskSendParams) (store : list Task) : nat * list Task :=
  match index_of_session (sessionId p) store 0 with
  | Some l =>
      (l, alter (fun t => {| task_id := task_id t; status := status t;
                             history := history t ++ [message p] |}) l store)
  | None =>
      (length store,
       (store ++ [ {| task_id := sessionId p; status := PENDING; history := [message p] |} ])%list)
  end.

(** The store of an orchestrator's task manager after one answered
    request of session "s1". *)
Definition answered_store : list Task :=
  [ {| task_id := "s1"; status := COMPLETED;
       history := [user_says "What time is it?";
                   {| role := "agent"; parts := [ {| text := "10:30" |} ] |}] |} ].

(** A 200 reply whose body is a JSON-RPC envelope without a result. *)
Definition envelope_without_result : Response :=
  {| raise_for_status := None;
     json_body := Ok (JObj [("jsonrpc", JStr "2.0"); ("id", JStr "r")]) |}.

Definition reply_without_result : http_outcome := Replied envelope_without_result.

Definition world_with (net : nat -> http_outcome) : world :=
  {| uuid_hex := fun n => "hex-" ++ String (ascii_of_nat (48 + n)) "";
     uuid_str := fun n => "uuid-" ++ String (ascii_of_nat (48 + n)) "";
     uuid_next := 0; net := net; posted := [] |}.

(** A task whose history holds the agent's reply and nothing else, as the
    tell-time task manager returns it for the first request of a
    session. *)
Definition first_reply_task : Task :=
  {| task_id := "s1"; status := COMPLETED; history := [agent_reply "10:30"] |}.

Definition clock (q sid : string) : result string := Ok "10:30".

(** An agent whose model call fails. *)
Definition broken (q sid : string) : result string :=
  Raise (Exn RuntimeError "model unavailable").

Definition ask_time : SendTaskRequest := request_of "req-1" "s1" (user_says "What time is it?").

Definition no_parts : SendTaskRequest := request_of "req-2" "s1" {| role := "user"; parts := [] |}.

(** Two sources: the first answers with the descriptor of "TimeAgent",
    the second times out. *)
Definition two_sources (i : nat) (url : string) : http_outcome :=
  if bool_decide (url = "http://a/.well-known/agent.json") then
    Replied {| raise_for_status := None;
               json_body := Ok (JObj [("name", JStr "TimeAgent"); ("url", JStr "http://a")]) |}
  else TransportError "timed out".

Definition tool (name : string) : MCPConnector.MCPTool :=
  {| MCPConnector.tool_name := name; MCPConnector.tool_description := "";
     MCPConnector.input_schema := JObj []; MCPConnector.server_cmd := "python";
     MCPConnector.server_args := ["filesystem_server.py"] |}.

(** One server that lists two tools, and one whose listing fails. *)
Definition servers : list MCPConnector.server :=
  [ {| MCPConnector.srv_cmd := "python"; MCPConnector.srv_args := ["filesystem_server.py"];
       MCPConnector.srv_listing := Some [("read_file", "", JObj []); ("list_dir", "", JObj [])] |};
    {| MCPConnector.srv_cmd := "missing"; MCPConnector.srv_args := [];
       MCPConnector.srv_listing := None |} ].

End Demo.

(** ** More concrete inputs *)

Module Samples.

(** Server parameters are valid when the command is a string and the
    arguments are a list of strings. *)
Definition str_of (j : json) : option string :=
  match j with
  | JStr s => Some s
  | _ => None
  end.

Definition server_parameters (cmd args : json) : result (string * list string) :=
  match cmd, args with
  | JStr c, JArr l =>
      match mapM str_of l with
      | Some a => Ok (c, a)
      | None => Raise (Exn ValidationError "args")
      end
  | _, _ => Raise (Exn ValidationError "command")
  end.

(** Only the server started with "python" answers. *)
Definition list_tools (cmd : string) (args : list string)
  : option (list (string * string * json)) :=
  if bool_decide (cmd = "python") then
    Some [("read_file", "Read the contents of a file", JObj []);
          ("write_file", "Write content to a file", JObj [])]
  else None.

Definition fs_entry : string * json :=
  ("filesystem", JObj [("command", JStr "python"); ("args", JArr [JStr "filesystem_server.py"])]).

Definition down_entry : string * json :=
  ("down", JObj [("command", JStr "missing")]).

(** A small file system: a path holds a file with its content or a
    directory with the names of its entries. *)
Inductive node :=
  | File (content : string)
  | Dir (names : list string).

Definition no_such (p : string) : exn :=
  Exn FileNotFoundError ("[Errno 2] No such file or directory: '" ++ p ++ "'").

Definition small_os : FilesystemServer.os (gmap string node) :=
  {| FilesystemServer.path_exists := fun p fs => bool_decide (is_Some (fs !! p));
     FilesystemServer.path_isdir :=
       fun p fs => match fs !! p with Some (Dir _) => true | _ => false end;
     FilesystemServer.path_dirname := fun p => "";
     FilesystemServer.path_join := fun a b => a ++ "/" ++ b;
     FilesystemServer.read_text :=
       fun p fs => match fs !! p with Some (File c) => Ok c | _ => Raise (no_such p) end;
     FilesystemServer.write_text := fun p c fs => (Ok tt, <[p := File c]> fs);
     FilesystemServer.makedirs :=
       fun p fs => (Ok tt, match fs !! p with Some _ => fs | None => <[p := Dir []]> fs end);
     FilesystemServer.listdir :=
       fun p fs => match fs !! p with Some (Dir ns) => Ok ns | _ => Raise (no_such p) end;
     FilesystemServer.getsize :=
       fun p fs => match fs !! p with
                   | Some (File c) => Ok (String.length c)
                   | _ => Raise (no_such p)
                   end;
     FilesystemServer.rmtree := fun p fs => (Ok tt, delete p fs);
     FilesystemServer.remove := fun p fs => (Ok tt, delete p fs) |}.

Definition docs : gmap string node :=
  <["docs" := Dir ["a.txt"; "sub"]]>
    (<["docs/a.txt" := File "hello"]> (<["docs/sub" := Dir []]> ∅)).

(** The request a connector to the tell-time card posts first, and
    models under which the server reads it off the body. *)
Definition posted_request : SendTaskRequest :=
  {| request_id := "hex-1";
     params := {| params_id := "hex-0"; sessionId := "greeting_user";
                  message := Demo.user_says "What time is it?" |} |}.

Definition wire_models : models :=
  {| Task_validate := Demo.task_of; AgentCard_validate := Demo.card_of;
     A2ARequest_validate := fun _ => Ok (IsSendTaskRequest posted_request);
     response_id_nullable := false |}.

(** The content of the server's answer to that request. *)
Definition answer_content : json :=
  match (A2AServer.handle_request
           (A2AServer.tell_time_on_send_task Demo.task_json Demo.clock)
           wire_models "body" AgentTaskManager.init).1 with
  | A2AServer.JSONResponse _ content => content
  | A2AServer.Unhandled _ => JNull
  end.

Definition answered_world : world :=
  Demo.world_with (fun _ => Replied {| raise_for_status := None;
                                       json_body := Ok answer_content |}).


End Samples.

(** * Properties *)

(** ** Strings *)

Lemma starts_with_spec p s : starts_with p s = true <-> exists post, s = p ++ post.
Proof.
  revert s. induction p as [|a p IH]; intros s; simpl.
  - split; [intros _; by exists s | done].
  - destruct s as [|b s].
    + split; [done | intros [post H]; discriminate H].
    + rewrite andb_true_iff, bool_decide_eq_true, IH. split.
      * intros [-> [post ->]]. by exists post.
      * intros [post H]. injection H as -> ->. split; [done | by exists post].
Qed.

Lemma str_in_spec needle hay :
  str_in needle hay = true <-> exists pre post, hay = pre ++ needle ++ post.
Proof.
  induction hay as [|b hay IH]; simpl.
  - rewrite orb_false_r, starts_with_spec. split.
    + intros [post H]. by exists "", post.
    + intros [pre [post H]]. destruct pre; [by exists post | discriminate H].
  - rewrite orb_true_iff, starts_with_spec, IH. split.
    + intros [[post H] | [pre [post H]]].
      * by exists "", post.
      * exists (String b pre), post. simpl. by rewrite H.
    + intros [pre [post H]]. destruct pre as [|c pre].
      * left. by exists post.
      * right. simpl in H. injection H as -> ->. by exists pre, post.
Qed.

(** ** Resolution of a capability name *)

Section Find.

Context {A : Type} (f : A -> bool) (P : A -> Prop).
Hypothesis f_spec : forall x, f x = true <-> P x.

Lemma find_none_iff l : List.find f l = None <-> Forall (fun x => ~ P x) l.
Proof.
  induction l as [|a l IH]; simpl.
  - split; [constructor | done].
  - destruct (f a) eqn:E.
    + split; [done | intros H]. inversion H as [|? ? Ha _]; subst.
      exfalso. apply Ha. by apply f_spec.
    + rewrite IH. split.
      * intros H. constructor; [|done]. rewrite <- f_spec. congruence.
      * intros H. by inversion H.
Qed.

Lemma find_some_iff l c :
  List.find f l = Some c <->
  exists before after, l = (before ++ c :: after)%list /\ P c /\ Forall (fun x => ~ P x) before.
Proof.
  induction l as [|a l IH]; simpl.
  - split; [done | intros (before & after & H & _)]. by destruct before.
  - destruct (f a) eqn:E.
    + split.
      * intros [= ->]. exists [], l. split_and!; [done | by apply f_spec | constructor].
      * intros (before & after & H & Hc & Hb). destruct before as [|b before].
        -- simpl in H. by injection H as ->.
        -- simpl in H. injection H as -> ->. inversion Hb as [|? ? Hn _]; subst.
           exfalso. apply Hn. by apply f_spec.
    + rewrite IH. split.
      * intros (before & after & -> & Hc & Hb). exists (a :: before), after.
        split_and!; [done | done |]. constructor; [|done].
        rewrite <- f_spec. congruence.
      * intros (before & after & H & Hc & Hb). destruct before as [|b before].
        -- simpl in H. injection H as -> ->. apply f_spec in Hc. congruence.
        -- simpl in H. injection H as -> ->. exists before, after.
           split_and!; [done | done |]. by inversion Hb.
Qed.

End Find.

Lemma exact_match_spec name c :
  GreetingAgent.exact_match name c = true <-> ResolveSpec.exact name c.
Proof.
  unfold GreetingAgent.exact_match, ResolveSpec.exact.
  by rewrite orb_true_iff, !bool_decide_eq_true.
Qed.

Lemma substring_match_spec name c :
  GreetingAgent.substring_match name c = true <-> ResolveSpec.within name c.
Proof. apply str_in_spec. Qed.

Lemma first_such_unique P cards c c' :
  ResolveSpec.first_such P cards c -> ResolveSpec.first_such P cards c' -> c = c'.
Proof.
  intros (b1 & a1 & H1 & Hc1 & Hb1) (b2 & a2 & H2 & Hc2 & Hb2).
  subst cards. revert b2 H2 Hb2.
  induction b1 as [|x b1 IH]; intros [|y b2] H2 Hb2; simpl in H2.
  - by injection H2.
  - injection H2 as -> _. inversion Hb2; subst. done.
  - injection H2 as -> _. inversion Hb1; subst. done.
  - injection H2 as -> H2. inversion Hb1; subst. inversion Hb2; subst. eauto.
Qed.

Lemma first_such_not_all P cards c :
  ResolveSpec.first_such P cards c -> Forall (fun x => ~ P x) cards -> False.
Proof.
  intros (b & a & -> & Hc & _) H. apply Forall_app in H as [_ H].
  inversion H; subst. done.
Qed.

(** The card [match_agent] returns is the one the two tiers determine. *)
Lemma match_agent_resolves cards name :
  ResolveSpec.resolves cards name (handler (GreetingAgent.match_agent cards name)).
Proof.
  unfold GreetingAgent.match_agent.
  destruct (List.find (GreetingAgent.exact_match name) cards) as [c|] eqn:E1.
  - apply ResolveSpec.by_exact.
    by apply (find_some_iff _ _ (exact_match_spec name)) in E1.
  - apply (find_none_iff _ _ (exact_match_spec name)) in E1.
    destruct (List.find (GreetingAgent.substring_match name) cards) as [c|] eqn:E2.
    + apply ResolveSpec.by_substring; [done|].
      by apply (find_some_iff _ _ (substring_match_spec name)) in E2.
    + apply ResolveSpec.unknown; [done|].
      by apply (find_none_iff _ _ (substring_match_spec name)) in E2.
Qed.

(** [call_agent] on the capabilities "TellTimeAgent" and "Translator":
    a name that differs in case only, a substring, and two misses (blanks
    inside a name are not ignored). *)
Example match_agent_other_case :
  GreetingAgent.match_agent [Demo.tell_time_card; Demo.translator_card] "telltimeagent"
  = Ok Demo.tell_time_card.
Proof. reflexivity. Qed.

Example match_agent_substring :
  GreetingAgent.match_agent [Demo.tell_time_card; Demo.translator_card] "time"
  = Ok Demo.tell_time_card.
Proof. reflexivity. Qed.

Example match_agent_first_registered_wins :
  GreetingAgent.match_agent [Demo.tell_time_card; Demo.translator_card] "t"
  = Ok Demo.tell_time_card
  /\ GreetingAgent.match_agent [Demo.translator_card; Demo.tell_time_card] "t"
     = Ok Demo.translator_card.
Proof. split; reflexivity. Qed.

Example match_agent_unknown :
  GreetingAgent.match_agent [Demo.tell_time_card; Demo.translator_card] "Weather"
  = Raise (Exn ValueError "Agent 'Weather' not found.")
  /\ GreetingAgent.match_agent [Demo.tell_time_card; Demo.translator_card] "tell time agent"
     = Raise (Exn ValueError "Agent 'tell time agent' not found.").
Proof. split; reflexivity. Qed.

Lemma resolves_functional cards name o o' :
  ResolveSpec.resolves cards name o -> ResolveSpec.resolves cards name o' -> o = o'.
Proof.
  intros H H'.
  destruct H as [c Hc | c Hn Hc | Hn Hs]; destruct H' as [c' Hc' | c' Hn' Hc' | Hn' Hs'];
    try done;
    try (f_equal; by eapply first_such_unique);
    exfalso; eauto using first_such_not_all.
Qed.

Lemma init_connectors_snoc cards c :
  OrchestratorAgent.init_connectors (cards ++ [c])%list
  = <[card_name c := connector_of c]> (OrchestratorAgent.init_connectors cards).
Proof. unfold OrchestratorAgent.init_connectors. by rewrite fold_left_app. Qed.

Lemma init_connectors_none cards name :
  OrchestratorAgent.init_connectors cards !! name = None
  <-> Forall (fun c => card_name c <> name) cards.
Proof.
  induction cards as [|c cards IH] using rev_ind.
  - split; [constructor | done].
  - rewrite init_connectors_snoc, Forall_app, Forall_singleton, <- IH.
    rewrite lookup_insert_None. tauto.
Qed.

Lemma init_connectors_some cards name conn :
  OrchestratorAgent.init_connectors cards !! name = Some conn
  <-> exists before c after,
        cards = (before ++ c :: after)%list /\ card_name c = name /\ conn = connector_of c
        /\ Forall (fun x => card_name x <> name) after.
Proof.
  induction cards as [|c cards IH] using rev_ind.
  - split; [done | intros (b & c & a & H & _)]. by destruct b.
  - rewrite init_connectors_snoc, lookup_insert_Some, IH. split.
    + intros [[<- <-] | [Hne (b & c' & a & -> & Hn & -> & Ha)]].
      * exists cards, c, []. split_and!; done.
      * exists b, c', (a ++ [c])%list. split_and!; try done.
        -- by rewrite <- app_assoc.
        -- apply Forall_app. split; [done | by apply Forall_singleton].
    + intros (b & c' & a & H & Hn & -> & Ha).
      destruct a as [|x a _] using rev_ind.
      * apply app_inj_tail in H as [-> ->]. by left.
      * rewrite app_comm_cons, app_assoc in H. apply app_inj_tail in H as [-> ->].
        apply Forall_app in Ha as [Ha Hx]. rewrite Forall_singleton in Hx.
        right. split; [done|]. by exists b, c', a.
Qed.

(** C1, the claim at the orchestrator's [_delegate_task]: the name
    "telltimeagent" matches the registered "TellTimeAgent" exactly when
    case is ignored, so the two tiers resolve it to that card, and the
    lookup of [_delegate_task] raises [ValueError] instead. *)
Lemma delegate_task_lookup_is_case_sensitive :
  ResolveSpec.resolves [Demo.tell_time_card] "telltimeagent" (Some Demo.tell_time_card)
  /\ OrchestratorAgent.lookup_connector
       (OrchestratorAgent.init_connectors [Demo.tell_time_card]) "telltimeagent"
     = Raise (Exn ValueError "Unknown agent: telltimeagent").
Proof.
  split.
  - apply ResolveSpec.by_exact. exists [], [].
    split_and!; [done | left; reflexivity | constructor].
  - unfold OrchestratorAgent.lookup_connector.
    replace (OrchestratorAgent.init_connectors [Demo.tell_time_card] !! "telltimeagent")
      with (@None AgentConnector); [done|].
    symmetry. apply init_connectors_none. apply Forall_singleton.
    simpl. discriminate.
Qed.

(** C1 (amended): in [call_agent] of the greeting agent a name resolves in
    two tiers: to the first card, in registration order, whose name or id
    equals it when case is ignored; failing that, to the first card whose
    name contains it when case is ignored; failing that, [ValueError] is
    raised. The resolution is a function of the cards and the name, and a
    repeated call reuses the cached connector. In [_delegate_task] of the
    orchestrator a name resolves only when it is, letter for letter, the
    name of a registered card (the last one registered under that name),
    and [ValueError] is raised otherwise. *)
Theorem resolution_two_tier_in_call_agent_exact_in_delegate_task :
  forall (cards : list AgentCard) (name : string),
    (forall o, ResolveSpec.resolves cards name o
               <-> o = handler (GreetingAgent.match_agent cards name))
    /\ (handler (GreetingAgent.match_agent cards name) = None ->
        GreetingAgent.match_agent cards name
        = Raise (Exn ValueError ("Agent '" ++ name ++ "' not found.")))
    /\ (forall c cache,
          GreetingAgent.get_connector c
            (GreetingAgent.get_connector c cache).2
          = GreetingAgent.get_connector c cache)
    /\ (forall conn,
          OrchestratorAgent.lookup_connector (OrchestratorAgent.init_connectors cards) name
          = Ok conn
          <-> exists before c after,
                cards = (before ++ c :: after)%list /\ card_name c = name
                /\ conn = connector_of c
                /\ Forall (fun x => card_name x <> name) after)
    /\ (OrchestratorAgent.lookup_connector (OrchestratorAgent.init_connectors cards) name
        = Raise (Exn ValueError ("Unknown agent: " ++ name))
        <-> Forall (fun c => card_name c <> name) cards).
Proof.
  intros cards name. split_and!.
  - intros o. split.
    + intros H. eapply resolves_functional; [exact H | apply match_agent_resolves].
    + intros ->. apply match_agent_resolves.
  - unfold GreetingAgent.match_agent.
    destruct (List.find (GreetingAgent.exact_match name) cards); [done|].
    destruct (List.find (GreetingAgent.substring_match name) cards); done.
  - intros c cache. unfold GreetingAgent.get_connector.
    destruct (cache !! card_name c) as [k|] eqn:E; simpl.
    + by rewrite E.
    + by rewrite lookup_insert_eq.
  - intros conn. rewrite <- init_connectors_some.
    unfold OrchestratorAgent.lookup_connector.
    destruct (OrchestratorAgent.init_connectors cards !! name); split; congruence.
  - rewrite <- init_connectors_none.
    unfold OrchestratorAgent.lookup_connector.
    destruct (OrchestratorAgent.init_connectors cards !! name); split; congruence.
Qed.

(** ** The reply extracted from the returned task *)

Lemma greeting_final_reply_last task m p ps :
  last (history task) = Some m -> parts m = p :: ps ->
  GreetingAgent.final_reply task = text p.
Proof. unfold GreetingAgent.final_reply. by intros -> ->. Qed.

Lemma final_reply_empty task :
  history task = [] ->
  GreetingAgent.final_reply task = "" /\ OrchestratorAgent.final_reply task = Ok "".
Proof.
  unfold GreetingAgent.final_reply, OrchestratorAgent.final_reply. by intros ->.
Qed.

Lemma orchestrator_final_reply_single task m :
  history task = [m] -> OrchestratorAgent.final_reply task = Ok "".
Proof. unfold OrchestratorAgent.final_reply. by intros ->. Qed.

Lemma orchestrator_final_reply_many task m p ps :
  (1 < length (history task))%nat -> last (history task) = Some m -> parts m = p :: ps ->
  OrchestratorAgent.final_reply task = Ok (text p).
Proof.
  unfold OrchestratorAgent.final_reply. intros Hlen Hl Hp.
  assert (history task <> []) by (intros E; rewrite E in Hlen; simpl in Hlen; lia).
  rewrite bool_decide_eq_true_2 by done.
  apply Nat.ltb_lt in Hlen. rewrite Hlen. simpl. by rewrite Hl, Hp.
Qed.

(** C2, at the failing input: the connector returns a task whose history
    is the single entry with text "10:30". [_delegate_task] of the
    orchestrator returns the empty string, not the text of that last
    entry; [call_agent] of the greeting agent, on the same reply,
    returns "10:30". *)
Lemma delegate_task_drops_single_entry_reply :
  let w := Demo.world_with (fun _ => Demo.reply_with Demo.first_reply_task) in
  (OrchestratorAgent._delegate_task Demo.demo_models
     (OrchestratorAgent.init_connectors [Demo.tell_time_card])
     "TellTimeAgent" "What time is it?" ∅ w).1.1 = Ok ""
  /\ (GreetingAgent.call_agent Demo.demo_models [Demo.tell_time_card]
        "TellTimeAgent" "What time is it?" ∅ w).1.1 = Ok "10:30".
Proof. split; vm_compute; reflexivity. Qed.

(** ** The store of the tell-time task manager *)

Section TaskManagerProperties.

Import AgentTaskManager.

Lemma consistent_init : consistent init.
Proof. split; simpl; intros *; by rewrite ?lookup_nil, ?lookup_empty. Qed.

Lemma upsert_task_seen p tm l :
  _tasks tm !! sessionId p = Some l -> upsert_task p tm = (l, tm).
Proof. unfold upsert_task. by intros ->. Qed.

Lemma upsert_task_unseen p tm :
  _tasks tm !! sessionId p = None ->
  upsert_task p tm
  = (length (objs tm),
     {| objs := objs tm ++ [ {| task_id := sessionId p; status := PENDING; history := [] |} ];
        _tasks := <[sessionId p := length (objs tm)]> (_tasks tm) |}).
Proof. unfold upsert_task. by intros ->. Qed.

Lemma upsert_task_registers p tm :
  _tasks (upsert_task p tm).2 !! sessionId p = Some (upsert_task p tm).1.
Proof.
  destruct (_tasks tm !! sessionId p) as [l|] eqn:E.
  - by rewrite (upsert_task_seen _ _ _ E).
  - rewrite (upsert_task_unseen _ _ E). simpl. apply lookup_insert_eq.
Qed.

Lemma upsert_task_keeps p tm sid l :
  _tasks tm !! sid = Some l -> _tasks (upsert_task p tm).2 !! sid = Some l.
Proof.
  intros H. destruct (_tasks tm !! sessionId p) as [l'|] eqn:E.
  - by rewrite (upsert_task_seen _ _ _ E).
  - rewrite (upsert_task_unseen _ _ E). simpl.
    rewrite lookup_insert_ne; [done | congruence].
Qed.

Lemma on_send_task_tasks agent request tm :
  _tasks (on_send_task agent request tm).2 = _tasks (upsert_task (params request) tm).2.
Proof.
  unfold on_send_task. destruct (upsert_task (params request) tm) as [l s1]. simpl.
  destruct (_get_user_query request); [|done].
  destruct (agent _ _); done.
Qed.

Lemma step_keeps c tm sid l :
  _tasks tm !! sid = Some l -> _tasks (step c tm) !! sid = Some l.
Proof.
  intros H. destruct c as [p | agent request]; simpl.
  - by apply upsert_task_keeps.
  - rewrite on_send_task_tasks. by apply upsert_task_keeps.
Qed.

Lemma run_keeps cs tm sid l :
  _tasks tm !! sid = Some l -> _tasks (run cs tm) !! sid = Some l.
Proof.
  revert tm. induction cs as [|c cs IH]; intros tm H; [done|].
  apply IH. by apply step_keeps.
Qed.

Lemma consistent_upsert p tm : consistent tm -> consistent (upsert_task p tm).2.
Proof.
  intros [H1 H2 H3]. destruct (_tasks tm !! sessionId p) as [l'|] eqn:E.
  - by rewrite (upsert_task_seen _ _ _ E).
  - rewrite (upsert_task_unseen _ _ E). split; simpl.
    + intros l t Hl. apply lookup_app_Some in Hl as [Hl | [Hlen Hl]].
      * rewrite lookup_insert_ne; [by apply H1|].
        intros Heq. apply H1 in Hl. congruence.
      * apply list_lookup_singleton_Some in Hl as [Hz <-]. simpl.
        rewrite lookup_insert_eq. f_equal. lia.
    + intros sid l Hl. apply lookup_insert_Some in Hl as [[<- <-] | [Hne Hl]].
      * eexists. split; [by rewrite lookup_app_r, Nat.sub_diag by lia | done].
      * destruct (H2 _ _ Hl) as (t & Ht & Hid). exists t. split; [|done].
        apply lookup_app_l_Some, Ht.
    + intros l t Hl. apply lookup_app_Some in Hl as [Hl | [Hlen Hl]].
      * by eapply H3.
      * apply list_lookup_singleton_Some in Hl as [_ <-]. by left.
Qed.

Lemma consistent_complete reply l tm :
  consistent tm ->
  consistent {| objs := alter (complete_with reply) l (objs tm); _tasks := _tasks tm |}.
Proof.
  intros [H1 H2 H3]. split; simpl.
  - intros l' t Hl. destruct (decide (l = l')) as [<- | Hne].
    + rewrite list_lookup_alter_eq in Hl. apply fmap_Some in Hl as (t0 & Ht0 & ->).
      simpl. by apply H1.
    + rewrite list_lookup_alter_ne in Hl by done. by apply H1.
  - intros sid l' Hl. destruct (H2 _ _ Hl) as (t & Ht & Hid).
    destruct (decide (l = l')) as [<- | Hne].
    + exists (complete_with reply t). split; [|done].
      by rewrite list_lookup_alter_eq, Ht.
    + exists t. split; [|done]. by rewrite list_lookup_alter_ne.
  - intros l' t Hl. destruct (decide (l = l')) as [<- | Hne].
    + rewrite list_lookup_alter_eq in Hl. apply fmap_Some in Hl as (t0 & Ht0 & ->).
      by right.
    + rewrite list_lookup_alter_ne in Hl by done. by eapply H3.
Qed.

Lemma consistent_step c tm : consistent tm -> consistent (step c tm).
Proof.
  intros H. destruct c as [p | agent request]; simpl.
  - by apply consistent_upsert.
  - unfold on_send_task.
    pose proof (consistent_upsert (params request) tm H) as H'.
    destruct (upsert_task (params request) tm) as [l s1]. simpl in *.
    destruct (_get_user_query request); [|done].
    destruct (agent _ _); [|done]. simpl. by apply consistent_complete.
Qed.

Lemma consistent_run cs tm : consistent tm -> consistent (run cs tm).
Proof.
  revert tm. induction cs as [|c cs IH]; intros tm H; [done|].
  apply IH. by apply consistent_step.
Qed.

(** C3: [upsert_task] creates the task of a session id on first use: a
    pending task with an empty history, registered under that id. Every
    later call with the same session id, whatever calls the manager has
    served in between, returns that same task object and leaves the
    manager as it is. In every state the manager reaches, two task
    objects of the same session id are one object. *)
Theorem upsert_task_idempotent_per_session :
  forall (p : TaskSendParams) (tm : AgentTaskManager.t),
    let task := (upsert_task p tm).1 in
    let tm1 := (upsert_task p tm).2 in
    (_tasks tm !! sessionId p = None ->
       task = length (objs tm)
       /\ objs tm1
          = (objs tm ++ [ {| task_id := sessionId p; status := PENDING; history := [] |} ])%list)
    /\ _tasks tm1 !! sessionId p = Some task
    /\ (forall cs p', sessionId p' = sessionId p ->
          upsert_task p' (run cs tm1) = (task, run cs tm1))
    /\ (forall cs l1 l2 t1 t2,
          objs (run cs init) !! l1 = Some t1 -> objs (run cs init) !! l2 = Some t2 ->
          task_id t1 = task_id t2 -> l1 = l2).
Proof.
  intros p tm task tm1. subst task tm1. split_and!.
  - intros E. by rewrite (upsert_task_unseen _ _ E).
  - apply upsert_task_registers.
  - intros cs p' Hsid. apply upsert_task_seen. rewrite Hsid.
    apply run_keeps, upsert_task_registers.
  - intros cs l1 l2 t1 t2 H1 H2 Hid.
    destruct (consistent_run cs init consistent_init) as [Hreg _ _].
    apply Hreg in H1, H2. rewrite Hid in H1. congruence.
Qed.




(** C6, the claim at a request without parts for the unseen session "s1":
    the handler raises [IndexError], and the manager, which held no task
    before, now holds a pending task for "s1". *)
Lemma request_without_parts_creates_task :
  on_send_task Demo.clock (Demo.request_of "req-2" "s1" {| role := "user"; parts := [] |}) init
  = (Raise (Exn IndexError "list index out of range"),
     {| objs := [ {| task_id := "s1"; status := PENDING; history := [] |} ];
        _tasks := {[ "s1" := 0%nat ]} |})
  /\ task_of init "s1" = None
  /\ task_of (on_send_task Demo.clock
                (Demo.request_of "req-2" "s1" {| role := "user"; parts := [] |}) init).2 "s1"
     = Some {| task_id := "s1"; status := PENDING; history := [] |}.
Proof.
  split_and!.
  - unfold on_send_task, upsert_task. simpl. rewrite lookup_empty. simpl.
    by rewrite insert_empty.
  - done.
  - unfold task_of, on_send_task, upsert_task. simpl. rewrite lookup_empty. simpl.
    by rewrite lookup_insert_eq.
Qed.

(** C6 (amended): on a request whose message has no parts, both
    [on_send_task] methods raise [IndexError], whatever the agent is,
    after [upsert_task] has run, and leave the store as [upsert_task]
    made it. In the tell-time task manager that means: a task that
    existed is neither removed nor changed, the manager is unchanged when
    the session id was known, and a pending task with an empty history
    has been created when it was not. In the orchestrator's task manager
    the store is the one its inherited [upsert_task] returned, with
    whatever that method saved for the request. *)
Theorem request_without_parts_raises_after_upsert :
  forall (request : SendTaskRequest),
    parts (message (params request)) = [] ->
    (forall (agent : string -> string -> result string) (tm : AgentTaskManager.t),
        let tm' := (on_send_task agent request tm).2 in
        on_send_task agent request tm
        = (Raise (Exn IndexError "list index out of range"),
           (upsert_task (params request) tm).2)
        /\ (forall sid l t, _tasks tm !! sid = Some l -> objs tm !! l = Some t ->
              _tasks tm' !! sid = Some l /\ objs tm' !! l = Some t)
        /\ (is_Some (_tasks tm !! sessionId (params request)) -> tm' = tm)
        /\ (_tasks tm !! sessionId (params request) = None ->
              task_of tm' (sessionId (params request))
              = Some {| task_id := sessionId (params request); status := PENDING;
                        history := [] |}
              /\ length (objs tm') = S (length (objs tm))))
    /\ (forall (upsert : TaskSendParams -> list Task -> nat * list Task)
               (invoke : string -> string -> result string) (store : list Task),
          OrchestratorTaskManager.on_send_task upsert invoke request store
          = (Raise (Exn IndexError "list index out of range"),
             (upsert (params request) store).2)).
Proof.
  intros request Hparts. split.
  - intros agent tm tm'.
    assert (Heq : on_send_task agent request tm
                  = (Raise (Exn IndexError "list index out of range"),
                     (upsert_task (params request) tm).2)).
    { unfold on_send_task, _get_user_query, first_part_text. rewrite Hparts.
      by destruct (upsert_task (params request) tm). }
    subst tm'. rewrite Heq. simpl. split_and!.
    + done.
    + intros sid l t Hs Ho. split; [by apply upsert_task_keeps|].
      destruct (_tasks tm !! sessionId (params request)) as [l'|] eqn:E.
      * by rewrite (upsert_task_seen _ _ _ E).
      * rewrite (upsert_task_unseen _ _ E). simpl. by apply lookup_app_l_Some.
    + intros [l E]. by rewrite (upsert_task_seen _ _ _ E).
    + intros E. rewrite (upsert_task_unseen _ _ E). unfold task_of. simpl.
      rewrite lookup_insert_eq. simpl. split.
      * by rewrite lookup_app_r, Nat.sub_diag by lia.
      * rewrite length_app. simpl. lia.
  - intros upsert invoke store.
    unfold OrchestratorTaskManager.on_send_task, OrchestratorTaskManager._get_user_text,
      first_part_text.
    rewrite Hparts. by destruct (upsert (params request) store).
Qed.

End TaskManagerProperties.

(** The witness of C6: the request without parts, on the initial
    tell-time manager, where it leaves a pending task behind, and on an
    orchestrator's manager whose [upsert_task] saves the incoming
    message, where the task of "s1" has got the message although the
    request is then refused. *)
Lemma request_without_parts_raises_after_upsert_witness :
  parts (message (params Demo.no_parts)) = []
  /\ AgentTaskManager.on_send_task Demo.clock Demo.no_parts AgentTaskManager.init
     = (Raise (Exn IndexError "list index out of range"),
        (AgentTaskManager.upsert_task (params Demo.no_parts) AgentTaskManager.init).2)
  /\ OrchestratorTaskManager.on_send_task Demo.storing_upsert Demo.clock Demo.no_parts
       Demo.answered_store
     = (Raise (Exn IndexError "list index out of range"),
        [ {| task_id := "s1"; status := COMPLETED;
             history := [Demo.user_says "What time is it?"; agent_reply "10:30";
                         {| role := "user"; parts := [] |}] |} ]).
Proof.
  split; [reflexivity|]. split.
  - exact (proj1 (proj1 (request_without_parts_raises_after_upsert Demo.no_parts eq_refl)
                    Demo.clock AgentTaskManager.init)).
  - exact (proj2 (request_without_parts_raises_after_upsert Demo.no_parts eq_refl)
             Demo.storing_upsert Demo.clock Demo.answered_store).
Defined.

(** ** The correlation id of a response *)

Section ServerProperties.

Import A2AServer.

Lemma envelope_id_exclude_none r : envelope_id (model_dump_exclude_none r) = resp_id r.
Proof. by destruct r as [[i|] [res|] [err|]]. Qed.

Lemma envelope_id_model_dump r : envelope_id (model_dump r) = resp_id r.
Proof. by destruct r as [[i|] res err]. Qed.

(** C5 at an internal failure: the request "req-1" is valid and the
    agent's model call fails. With the response object as
    models/json_rpc.py declares it ([id: str]), building it with
    [id=None] raises inside the [except] branch and no envelope is sent;
    were [None] admitted, the envelope would carry [null] for the id, not
    "req-1". *)
Example error_envelope_drops_request_id :
  A2ARequest_validate (Demo.models_with false) "ask-time" = Ok (IsSendTaskRequest Demo.ask_time)
  /\ request_id Demo.ask_time = "req-1"
  /\ (handle_request (tell_time_on_send_task Demo.task_json Demo.broken)
        (Demo.models_with false) "ask-time" AgentTaskManager.init).1
     = Unhandled (Exn ValidationError "id: input should be a valid string")
  /\ (handle_request (tell_time_on_send_task Demo.task_json Demo.broken)
        (Demo.models_with true) "ask-time" AgentTaskManager.init).1
     = JSONResponse 400
         (JObj [("jsonrpc", JStr "2.0"); ("id", JNull); ("result", JNull);
                ("error", JObj [("code", JNum (-32603)); ("message", JStr "model unavailable");
                                ("data", JNull)])]).
Proof. split_and!; reflexivity. Qed.

Lemma tell_time_response_id dump agent request tm r tm' :
  tell_time_on_send_task dump agent request tm = (Ok (AsJSONRPCResponse r), tm') ->
  resp_id r = Some (request_id request).
Proof.
  unfold tell_time_on_send_task, AgentTaskManager.on_send_task.
  destruct (AgentTaskManager.upsert_task (params request) tm).
  destruct (AgentTaskManager._get_user_query request); [|done].
  destruct (agent _ _); [|done]. by intros [= <- _].
Qed.

Lemma tell_time_raises dump agent request tm e :
  (AgentTaskManager.on_send_task agent request tm).1 = Raise e ->
  (tell_time_on_send_task dump agent request tm).1 = Raise e.
Proof.
  unfold tell_time_on_send_task.
  destruct (AgentTaskManager.on_send_task agent request tm) as [[resp|e'] tm1]; simpl; [done|].
  by intros [= ->].
Qed.

Lemma tell_time_returns dump agent request tm resp :
  (AgentTaskManager.on_send_task agent request tm).1 = Ok resp ->
  exists r, (tell_time_on_send_task dump agent request tm).1 = Ok (AsJSONRPCResponse r)
            /\ resp_id r = Some (request_id request).
Proof.
  intros H.
  destruct (tell_time_on_send_task dump agent request tm) as [[[r|ty]|e] tm'] eqn:E.
  - exists r. split; [done|]. by eapply tell_time_response_id.
  - unfold tell_time_on_send_task in E.
    destruct (AgentTaskManager.on_send_task agent request tm) as [[resp'|e'] tm1]; done.
  - unfold tell_time_on_send_task in E.
    destruct (AgentTaskManager.on_send_task agent request tm) as [[resp'|e'] tm1]; done.
Qed.

(** C5: what the tell-time server answers, by what happens in the [try]
    of [handle_request]. When the task manager returns, the answer is a
    200 envelope carrying the id of the request, so decoding it gives the
    id back. When the [try] raises [e] (the body does not validate, the
    request is of another type, or the task manager raises), the answer
    never carries the id of the request, known or not: with the response
    object as models/json_rpc.py declares it ([id: str]) the [except]
    branch itself fails on [id=None] and a validation error leaves the
    handler instead of an envelope; where [None] is admitted the answer
    is a 400 envelope with a null id, the internal-error code -32603 and
    the text of [e] as message. *)
Theorem failed_request_is_answered_without_its_id :
  forall (M : models) (dump : Task -> json) (agent : string -> string -> result string)
         (body : string) (tm : AgentTaskManager.t),
    let h := (handle_request (tell_time_on_send_task dump agent) M body tm).1 in
    (forall request resp,
        A2ARequest_validate M body = Ok (IsSendTaskRequest request) ->
        (AgentTaskManager.on_send_task agent request tm).1 = Ok resp ->
        exists content,
          h = JSONResponse 200 content /\ envelope_id content = Some (request_id request))
    /\ (forall e,
          A2ARequest_validate M body = Raise e
          \/ (exists ty, A2ARequest_validate M body = Ok (IsOtherRequest ty)
                         /\ e = Exn ValueError ("Unsupported request type: " ++ ty))
          \/ (exists request, A2ARequest_validate M body = Ok (IsSendTaskRequest request)
                              /\ (AgentTaskManager.on_send_task agent request tm).1 = Raise e) ->
          answered_without_id M e h /\ response_envelope_id h = None).
Proof.
  intros M dump agent body tm h. subst h. unfold handle_request.
  assert (Herr : forall e, answered_without_id M e (on_exception M e)
                           /\ response_envelope_id (on_exception M e) = None).
  { intros e. unfold answered_without_id, on_exception.
    by destruct (response_id_nullable M). }
  split.
  - intros request resp -> Hr.
    destruct (tell_time_returns dump agent request tm resp Hr) as (r & Hr' & Hid).
    destruct (tell_time_on_send_task dump agent request tm) as [r0 tm1]. simpl in *.
    subst r0. simpl. eexists. split; [done|]. by rewrite envelope_id_exclude_none.
  - intros e [-> | [(ty & -> & ->) | (request & -> & Hr)]]; simpl; try apply Herr.
    apply (tell_time_raises dump) in Hr.
    destruct (tell_time_on_send_task dump agent request tm) as [r0 tm1]. simpl in *.
    subst r0. simpl. apply Herr.
Qed.

End ServerProperties.

(** ** Discovery *)

Section DiscoveryProperties.

Import DiscoveryClient.

Lemma rstrip_slash_example : rstrip_slash "http://a//" = "http://a".
Proof. reflexivity. Qed.

Lemma card_of_outcome_parsed M o c :
  card_of_outcome M o = Some c <-> DiscoverySpec.parsed M o c.
Proof.
  split.
  - destruct o as [m | e | r]; simpl; try done.
    destruct (raise_for_status r) eqn:Hs; [by destruct (json_body r)|].
    destruct (json_body r) as [d|e] eqn:Hj; [|done].
    destruct (AgentCard_validate M d) as [agent|e] eqn:Hv; [|done].
    intros [= <-]. by econstructor.
  - intros H. destruct H as [r d c Hs Hj Hv]. simpl. by rewrite Hs, Hj, Hv.
Qed.

Lemma card_of_outcome_fails M o :
  card_of_outcome M o = None <-> DiscoverySpec.fails M o.
Proof.
  split.
  - destruct o as [m | e | r]; simpl; try by constructor.
    destruct (raise_for_status r) as [m|] eqn:Hs.
    { intros _. by eapply DiscoverySpec.fails_status. }
    destruct (json_body r) as [d|e] eqn:Hj.
    + destruct (AgentCard_validate M d) as [agent|e] eqn:Hv; [done|].
      intros _. by eapply DiscoverySpec.fails_descriptor.
    + intros _. by eapply DiscoverySpec.fails_body.
  - intros H. destruct H as [m | e | r m Hs | r e Hs Hj | r d e Hs Hj Hv]; simpl; try done.
    + rewrite Hs. by destruct (json_body r).
    + by rewrite Hs, Hj.
    + by rewrite Hs, Hj, Hv.
Qed.

(** The loop against the specification: it ends without raising, with
    the descriptors of the sources that did not fail added in source
    order. *)
Lemma discover_from_discovered M get i urls acc :
  exists cards k,
    DiscoverySpec.discovered M (queried_from get i urls) cards k
    /\ discover_from M get i (JStr <$> urls) acc = Ok (acc ++ cards)%list.
Proof.
  revert i acc. induction urls as [|u urls IH]; intros i acc; simpl.
  - exists [], 0%nat. split; [constructor | by rewrite app_nil_r].
  - destruct (card_of_outcome M (get i (well_known u))) as [agent|] eqn:E.
    + destruct (IH (S i) (acc ++ [agent])%list) as (cards & k & Hd & Heq).
      exists (agent :: cards), k. split.
      * constructor; [by apply card_of_outcome_parsed | done].
      * etrans; [exact Heq|]. by rewrite <- app_assoc.
    + destruct (IH (S i) acc) as (cards & k & Hd & Heq).
      exists cards, (S k). split; [|exact Heq].
      constructor; [by apply card_of_outcome_fails | done].
Qed.

Lemma discovered_functional M outcomes cards k cards' k' :
  DiscoverySpec.discovered M outcomes cards k ->
  DiscoverySpec.discovered M outcomes cards' k' ->
  cards' = cards /\ k' = k.
Proof.
  intros H. revert cards' k'.
  induction H as [|o os cs k Hf _ IH | o c os cs k Hp _ IH]; intros cards' k' H';
    inversion H' as [|? ? ? ? Hf' Hd' | ? c' ? ? ? Hp' Hd']; subst.
  - done.
  - destruct (IH _ _ Hd') as [-> ->]. done.
  - apply card_of_outcome_fails in Hf. apply card_of_outcome_parsed in Hp'. congruence.
  - apply card_of_outcome_fails in Hf'. apply card_of_outcome_parsed in Hp. congruence.
  - destruct (IH _ _ Hd') as [-> ->].
    apply card_of_outcome_parsed in Hp, Hp'. split; [|done]. f_equal. congruence.
Qed.

Lemma discovered_counts M outcomes cards k :
  DiscoverySpec.discovered M outcomes cards k ->
  (length cards + k = length outcomes)%nat.
Proof. induction 1; simpl; lia. Qed.

Lemma length_queried_from get i urls : length (queried_from get i urls) = length urls.
Proof.
  revert i. induction urls as [|u urls IH]; intros i; simpl; [done|]. by rewrite IH.
Qed.

(** The scenario of the specification: of the two sources, the one that
    answers is returned and the one that times out is skipped. *)
Example discover_skips_the_source_that_times_out :
  list_agent_card Demo.demo_models Demo.two_sources [JStr "http://a"; JStr "http://b"]
  = Ok [ {| card_name := "TimeAgent"; card_url := "http://a"; card_id := None |} ].
Proof. reflexivity. Qed.

(** Sources are gone through in order: an entry that is not a string
    stops the loop with the [AttributeError] of [rstrip], which is
    outside the [try], whatever the sources before it gave. *)
Lemma discover_from_not_a_string M get i urls entry rest acc :
  (forall u, entry <> JStr u) ->
  discover_from M get i ((JStr <$> urls) ++ entry :: rest)%list acc
  = Raise (Exn AttributeError "object has no attribute 'rstrip'").
Proof.
  intros Hentry. revert i acc. induction urls as [|u urls IH]; intros i acc.
  - simpl. destruct entry; try done. by destruct (Hentry s).
  - change (discover_from M get i (JStr u :: ((JStr <$> urls) ++ entry :: rest)%list) acc
            = Raise (Exn AttributeError "object has no attribute 'rstrip'")).
    simpl. destruct (card_of_outcome M (get i (well_known u))); apply IH.
Qed.

(** C7, the claim at a registry file that holds the list
    ["http://a", 1]: the first source answers with a valid descriptor and
    the second entry is no URL. Discovery does not return the descriptor
    of the first source and skip the second entry: it raises. *)
Lemma registry_entry_that_is_not_a_string_raises :
  _load_registry (Ok (JArr [JStr "http://a"; JNum 1])) = Ok [JStr "http://a"; JNum 1]
  /\ list_agent_card Demo.demo_models Demo.two_sources [JStr "http://a"]
     = Ok [ {| card_name := "TimeAgent"; card_url := "http://a"; card_id := None |} ]
  /\ discover Demo.demo_models Demo.two_sources (Ok (JArr [JStr "http://a"; JNum 1]))
     = Raise (Exn AttributeError "object has no attribute 'rstrip'").
Proof. split_and!; reflexivity. Qed.

(** C7 (amended): for a source list of N URL strings, of which K fail,
    being unreachable, answering with a status that is not a success, or
    with a body that is not a valid descriptor, discovery returns,
    without raising, exactly the descriptors the other sources parse to,
    in source order, N-K of them; the same holds of discovery from a
    registry file that holds that list. A registry file that is missing,
    is not JSON or does not hold a list gives the empty source list, and
    discovery then returns the empty list. An entry of the list that is
    not a string is not skipped: discovery raises [AttributeError] when
    it reaches it. *)
Theorem discovery_returns_the_successful_sources :
  forall (M : models) (get : nat -> string -> http_outcome) (urls : list string),
    (exists cards k,
        DiscoverySpec.discovered M (queried get urls) cards k
        /\ (forall cards' k', DiscoverySpec.discovered M (queried get urls) cards' k' ->
              cards' = cards /\ k' = k)
        /\ list_agent_card M get (JStr <$> urls) = Ok cards
        /\ discover M get (Ok (JArr (JStr <$> urls))) = Ok cards
        /\ length cards = (length urls - k)%nat
        /\ (k <= length urls)%nat)
    /\ (forall msg, _load_registry (Raise (Exn FileNotFoundError msg)) = Ok []
                    /\ discover M get (Raise (Exn FileNotFoundError msg)) = Ok [])
    /\ (forall msg, _load_registry (Raise (Exn JSONDecodeError msg)) = Ok []
                    /\ discover M get (Raise (Exn JSONDecodeError msg)) = Ok [])
    /\ (forall data, (forall l, data <> JArr l) ->
                     _load_registry (Ok data) = Ok [] /\ discover M get (Ok data) = Ok [])
    /\ (forall entry rest, (forall u, entry <> JStr u) ->
          discover M get (Ok (JArr ((JStr <$> urls) ++ entry :: rest)%list))
          = Raise (Exn AttributeError "object has no attribute 'rstrip'")).
Proof.
  intros M get urls. split_and!.
  - destruct (discover_from_discovered M get 0 urls []) as (cards & k & Hd & Heq).
    pose proof (discovered_counts _ _ _ _ Hd) as Hcount.
    unfold queried in Hcount. rewrite length_queried_from in Hcount.
    exists cards, k. split_and!.
    + done.
    + intros cards' k' Hd'. by eapply discovered_functional.
    + done.
    + done.
    + lia.
    + lia.
  - done.
  - done.
  - intros data Hdata. destruct data; try done. by destruct (Hdata items).
  - intros entry rest Hentry. by apply discover_from_not_a_string.
Qed.

End DiscoveryProperties.

(** ** The connector *)

Section ConnectorProperties.

Lemma send_task_world M conn msg sid w :
  (AgentConnectorM.send_task M conn msg sid w).2
  = {| uuid_hex := uuid_hex w; uuid_str := uuid_str w; uuid_next := S (S (uuid_next w));
       net := net w; posted := posted w ++ [AgentConnectorM.request_sent conn msg sid w] |}.
Proof. reflexivity. Qed.

Lemma send_task_result M conn msg sid w :
  (AgentConnectorM.send_task M conn msg sid w).1
  = bind (A2AClient.handle_outcome (net w (length (posted w)))) (A2AClient.task_of_response M).
Proof. reflexivity. Qed.

Lemma handle_outcome_ok o j :
  A2AClient.handle_outcome o = Ok j
  <-> exists resp, o = Replied resp /\ raise_for_status resp = None /\ json_body resp = Ok j.
Proof.
  unfold A2AClient.handle_outcome, A2AClient.try_body. split.
  - destruct o as [m | e | resp]; simpl.
    + done.
    + by destruct (exn_cls e).
    + destruct (raise_for_status resp) eqn:Hs; [done|].
      destruct (json_body resp) as [j'|e] eqn:Hj.
      * intros [= ->]. by exists resp.
      * by destruct (exn_cls e).
  - intros (resp & -> & Hs & Hj). by rewrite Hs, Hj.
Qed.

(** C9, the claim at a reply that is JSON but malformed: the endpoint
    answers 200 with an envelope that holds no result. The connector
    raises the [KeyError] of [response["result"]], which is not the
    client's decode error. *)
Lemma reply_without_result_is_not_a_decode_error :
  (AgentConnectorM.send_task Demo.demo_models (connector_of Demo.tell_time_card)
     "What time is it?" "s1" (Demo.world_with (fun _ => Demo.reply_without_result))).1
  = Raise (Exn KeyError "result")
  /\ json_body Demo.envelope_without_result
     = Ok (JObj [("jsonrpc", JStr "2.0"); ("id", JStr "r")])
  /\ exn_cls (Exn KeyError "result") <> A2AClientJSONError.
Proof. split_and!; [reflexivity | reflexivity | discriminate]. Qed.

(** C9 (amended): a call of the connector posts exactly one request,
    whatever the outcome. A transport failure of the POST and a reply
    whose status check fails raise [A2AClientHttpError]; a reply whose
    body is not JSON raises [A2AClientJSONError], a different exception.
    Nothing else is wrapped: any other exception of the POST or of the
    decoding (the [UnicodeDecodeError] of a body that is not text, for
    one) leaves the call as it is, and so do the errors of a reply that
    is JSON but not a task envelope: [TypeError] when it is not an
    object, [KeyError] when it has no result, and whatever validating the
    result against [Task] raises. A task is returned only from a reply
    that passed the status check, decoded to an object and holds a result
    that validates. *)
Theorem connector_wraps_transport_and_json_errors_and_never_retries :
  forall (M : models) (conn : AgentConnector) (msg sid : string) (w : world),
    let r := (AgentConnectorM.send_task M conn msg sid w).1 in
    let w' := (AgentConnectorM.send_task M conn msg sid w).2 in
    let o := net w (length (posted w)) in
    posted w' = (posted w ++ [AgentConnectorM.request_sent conn msg sid w])%list
    /\ length (posted w') = S (length (posted w))
    /\ (forall url request,
          posted (A2AClient._send_request url request w).2 = (posted w ++ [(url, request)])%list)
    /\ (forall m, o = TransportError m ->
          r = Raise (Exn A2AClientHttpError ("HTTP error occurred: " ++ m)))
    /\ (forall resp m, o = Replied resp -> raise_for_status resp = Some m ->
          r = Raise (Exn A2AClientHttpError ("HTTP error occurred: " ++ m)))
    /\ (forall resp e, o = Replied resp -> raise_for_status resp = None ->
          json_body resp = Raise e -> exn_cls e = JSONDecodeError ->
          r = Raise (Exn A2AClientJSONError ("Error parsing JSON response: " ++ exn_msg e)))
    /\ A2AClientHttpError <> A2AClientJSONError
    /\ (forall resp e, o = Replied resp -> raise_for_status resp = None ->
          json_body resp = Raise e ->
          exn_cls e <> JSONDecodeError -> exn_cls e <> HTTPError -> r = Raise e)
    /\ (forall e, o = OtherFailure e ->
          exn_cls e <> JSONDecodeError -> exn_cls e <> HTTPError -> r = Raise e)
    /\ (forall resp j, o = Replied resp -> raise_for_status resp = None ->
          json_body resp = Ok j ->
          match j with
          | JObj fields =>
              match assoc "result" fields with
              | Some v => r = Task_validate M v
              | None => r = Raise (Exn KeyError "result")
              end
          | _ => exists m, r = Raise (Exn TypeError m)
          end)
    /\ (forall task, r = Ok task ->
          exists resp fields v,
            o = Replied resp /\ raise_for_status resp = None
            /\ json_body resp = Ok (JObj fields) /\ assoc "result" fields = Some v
            /\ Task_validate M v = Ok task).
Proof.
  intros M conn msg sid w r w' o. subst r w' o.
  rewrite send_task_world, send_task_result. simpl. split_and!.
  - done.
  - rewrite length_app. simpl. lia.
  - done.
  - by intros m ->.
  - intros resp m -> Hs. unfold A2AClient.handle_outcome. simpl. by rewrite Hs.
  - intros resp e -> Hs Hj Hc. unfold A2AClient.handle_outcome. simpl.
    by rewrite Hs, Hj, Hc.
  - done.
  - intros resp e -> Hs Hj H1 H2. unfold A2AClient.handle_outcome. simpl.
    rewrite Hs, Hj. by destruct (exn_cls e).
  - intros e -> H1 H2. unfold A2AClient.handle_outcome. simpl. by destruct (exn_cls e).
  - intros resp j Ho Hs Hj.
    rewrite (proj2 (handle_outcome_ok _ j)) by eauto. simpl.
    unfold A2AClient.task_of_response.
    destruct j as [| | | | |fields]; simpl; eauto.
    by destruct (assoc "result" fields).
  - intros task H.
    destruct (A2AClient.handle_outcome (net w (length (posted w)))) as [j|e] eqn:E; [|done].
    apply handle_outcome_ok in E as (resp & Ho & Hs & Hj). simpl in H.
    unfold A2AClient.task_of_response in H.
    destruct j as [| | | | |fields]; simpl in H; try done.
    destruct (assoc "result" fields) as [v|] eqn:Hv; [|done].
    by exists resp, fields, v.
Qed.

End ConnectorProperties.

(** ** The session id of delegated calls *)

Section SessionProperties.

Import OrchestratorAgent.

Lemma ensure_session_id_spec state w :
  let '(sid, state1, w1) := ensure_session_id state w in
  sid = session_of state w
  /\ state1 !! "session_id" = Some sid
  /\ posted w1 = posted w /\ uuid_str w1 = uuid_str w.
Proof.
  unfold ensure_session_id, session_of.
  destruct (state !! "session_id") as [s|] eqn:E; simpl.
  - done.
  - by rewrite lookup_insert_eq.
Qed.

(** One call of [_delegate_task] posts at most one request, under the
    session id of the state, and leaves that session id in the state. *)
Lemma delegate_task_session M connectors agent_name msg state w :
  let '(r, state', w') := _delegate_task M connectors agent_name msg state w in
  session_of state' w' = session_of state w
  /\ exists new, posted w' = (posted w ++ new)%list
                 /\ (length new <= 1)%nat
                 /\ Forall (fun s => s = session_of state w) (session_ids new).
Proof.
  unfold _delegate_task.
  destruct (lookup_connector connectors agent_name) as [connector|e].
  - pose proof (ensure_session_id_spec state w) as H.
    destruct (ensure_session_id state w) as [[sid state1] w1].
    destruct H as (-> & Hs & Hp & Hu).
    pose proof (send_task_world M connector msg (session_of state w) w1) as Hw.
    destruct (AgentConnectorM.send_task M connector msg (session_of state w) w1)
      as [child_task w2].
    simpl in Hw. subst w2. split.
    + unfold session_of at 1. by rewrite Hs.
    + eexists [_]. simpl. rewrite Hp. split_and!; [done | done |].
      by apply Forall_singleton.
  - split; [done|]. exists []. rewrite app_nil_r. split_and!; [done | simpl; lia | constructor].
Qed.

Lemma delegate_all_session M connectors calls state w :
  let '(rs, state', w') := delegate_all M connectors calls state w in
  session_of state' w' = session_of state w
  /\ exists new, posted w' = (posted w ++ new)%list
                 /\ (length new <= length calls)%nat
                 /\ Forall (fun s => s = session_of state w) (session_ids new).
Proof.
  revert state w. induction calls as [|[agent_name msg] calls IH]; intros state w; simpl.
  - split; [done|]. exists []. rewrite app_nil_r. split_and!; [done | done | constructor].
  - pose proof (delegate_task_session M connectors agent_name msg state w) as H1.
    destruct (_delegate_task M connectors agent_name msg state w) as [[r state1] w1].
    specialize (IH state1 w1).
    destruct (delegate_all M connectors calls state1 w1) as [[rs state2] w2].
    destruct H1 as (Hs1 & new1 & Hp1 & Hl1 & Hf1).
    destruct IH as (Hs2 & new2 & Hp2 & Hl2 & Hf2).
    split; [congruence|]. exists (new1 ++ new2)%list. split_and!.
    + by rewrite Hp2, Hp1, <- app_assoc.
    + rewrite length_app. lia.
    + unfold session_ids in *. rewrite map_app. apply Forall_app. split; [done|].
      by rewrite <- Hs1.
Qed.

(** C8, the claim at the scenario: the conversation of the end user has
    session id "s1" and the model delegates to "TellTimeAgent" in two
    successive runs. Both outbound requests carry the same session id,
    and it is the value [uuid4] gave at the first call, not "s1". *)
Lemma delegated_calls_do_not_carry_the_callers_session_id :
  let w := Demo.world_with (fun _ => Demo.reply_with Demo.first_reply_task) in
  let connectors := init_connectors [Demo.tell_time_card] in
  let run1 := invoke Demo.demo_models connectors
                [("TellTimeAgent", "What time is it?")] "s1" ∅ w in
  let run2 := invoke Demo.demo_models connectors
                [("TellTimeAgent", "What time is it?")] "s1" run1.1.2 run1.2 in
  session_ids (posted run2.2) = ["uuid-0"; "uuid-0"]
  /\ session_ids (posted run2.2) <> ["s1"; "s1"].
Proof. split; [vm_compute; reflexivity | vm_compute; discriminate]. Qed.

(** C8 (amended): within one conversation (one session of the runner,
    whose state the session service keeps), every request the orchestrator
    delegates carries one and the same session id, over the calls of one
    run and over successive runs: the value stored under "session_id" in
    the session state, which [_delegate_task] sets from [uuid4] at the
    first delegated call when the state holds none, and reuses from then
    on. That id is the one of the state, not the session id the caller
    passed to [invoke]. *)
Theorem delegated_calls_share_the_session_id_of_the_state :
  forall (M : models) (connectors : gmap string AgentConnector)
         (calls1 calls2 : list (string * string)) (session_id : string)
         (sessions : gmap string (gmap string string)) (w : world),
    let run1 := invoke M connectors calls1 session_id sessions w in
    let run2 := invoke M connectors calls2 session_id run1.1.2 run1.2 in
    exists new,
      posted run2.2 = (posted w ++ new)%list
      /\ (length new <= length calls1 + length calls2)%nat
      /\ Forall (fun s => s = session_of (default ∅ (sessions !! session_id)) w)
                (session_ids new).
Proof.
  intros M connectors calls1 calls2 session_id sessions w run1 run2.
  subst run1 run2. unfold invoke.
  pose proof (delegate_all_session M connectors calls1
                (default ∅ (sessions !! session_id)) w) as H1.
  destruct (delegate_all M connectors calls1 (default ∅ (sessions !! session_id)) w)
    as [[rs1 state1] w1].
  simpl. rewrite lookup_insert_eq. simpl.
  pose proof (delegate_all_session M connectors calls2 state1 w1) as H2.
  destruct (delegate_all M connectors calls2 state1 w1) as [[rs2 state2] w2].
  destruct H1 as (Hs1 & new1 & Hp1 & Hl1 & Hf1).
  destruct H2 as (Hs2 & new2 & Hp2 & Hl2 & Hf2).
  simpl. exists (new1 ++ new2)%list. split_and!.
  - by rewrite Hp2, Hp1, <- app_assoc.
  - rewrite length_app. lia.
  - unfold session_ids in *. rewrite map_app. apply Forall_app. split; [done|].
    by rewrite <- Hs1.
Qed.

End SessionProperties.

(** ** The tool cache of the MCP connector *)

Section GatewayProperties.

Import MCPConnector.

Lemma mutations_elsewhere r l ops (h : store) :
  l <> r -> fold_left (mutate r) ops h !! l = h !! l.
Proof.
  intros Hne. revert h. induction ops as [|o ops IH]; intros h; simpl; [done|].
  rewrite IH. unfold mutate. apply list_lookup_alter_ne. congruence.
Qed.

Lemma get_tools_fresh self (h : store) ts :
  h !! tools self = Some ts ->
  get_tools self h = Some (length h, (h ++ [ts])%list)
  /\ (h ++ [ts])%list !! length h = Some ts
  /\ length h <> tools self.
Proof.
  intros H. unfold get_tools. rewrite H. split_and!.
  - done.
  - by rewrite lookup_app_r, Nat.sub_diag by lia.
  - apply lookup_lt_Some in H. lia.
Qed.

(** Handing out the list itself would expose the cache: an append through
    the returned name shows in the connector's own list. *)
Example alias_would_expose_the_cache :
  let '(conn, h) := init Demo.servers [] in
  match get_tools_alias conn h with
  | Some (r, h1) => mutate r h1 (Append (Demo.tool "extra")) !! tools conn
  | None => None
  end
  = Some [Demo.tool "read_file"; Demo.tool "list_dir"; Demo.tool "extra"].
Proof. reflexivity. Qed.

(** C10: [get_tools] returns a new list object holding the elements of
    the connector's list. Whatever in-place operations are then applied
    to the returned list (appending, inserting, removing, reversing,
    clearing, overwriting), the connector's own list is unchanged, and a
    further [get_tools] returns the same elements as before. *)
Theorem get_tools_returns_an_independent_copy :
  forall (self : MCPConnector.t) (h : store) (ts : list MCPTool),
    h !! tools self = Some ts ->
    exists r,
      get_tools self h = Some (r, (h ++ [ts])%list)
      /\ (h ++ [ts])%list !! r = Some ts
      /\ r <> tools self
      /\ forall ops,
           let h' := fold_left (mutate r) ops (h ++ [ts])%list in
           h' !! tools self = Some ts
           /\ exists r', get_tools self h' = Some (r', (h' ++ [ts])%list)
                         /\ (h' ++ [ts])%list !! r' = Some ts.
Proof.
  intros self h ts H. exists (length h).
  destruct (get_tools_fresh self h ts H) as (Hget & Hcopy & Hne).
  split_and!; [done | done | done |].
  intros ops h'.
  assert (H' : h' !! tools self = Some ts).
  { subst h'. rewrite mutations_elsewhere by done. by apply lookup_app_l_Some. }
  split; [done|]. exists (length h').
  destruct (get_tools_fresh self h' ts H') as (Hget' & Hcopy' & _). done.
Qed.

(** The witness of C10: the connector built from the configured servers;
    the returned copy is appended to, reversed and popped. *)
Lemma get_tools_returns_an_independent_copy_witness :
  (init Demo.servers []).2 !! tools (init Demo.servers []).1
  = Some [Demo.tool "read_file"; Demo.tool "list_dir"]
  /\ exists r,
       get_tools (init Demo.servers []).1 (init Demo.servers []).2
       = Some (r, ((init Demo.servers []).2
                   ++ [[Demo.tool "read_file"; Demo.tool "list_dir"]])%list)
       /\ fold_left (mutate r) [Append (Demo.tool "extra"); Reverse; Pop 0]
            ((init Demo.servers []).2 ++ [[Demo.tool "read_file"; Demo.tool "list_dir"]])%list
          !! tools (init Demo.servers []).1
          = Some [Demo.tool "read_file"; Demo.tool "list_dir"].
Proof.
  split; [reflexivity|].
  destruct (get_tools_returns_an_independent_copy (init Demo.servers []).1
              (init Demo.servers []).2 [Demo.tool "read_file"; Demo.tool "list_dir"] eq_refl)
    as (r & Hget & _ & _ & Hops).
  exists r. split; [exact Hget|].
  exact (proj1 (Hops [Append (Demo.tool "extra"); Reverse; Pop 0])).
Defined.

End GatewayProperties.

(** ** The time server of level 1 *)

Section TimeServerProperties.

Import TimeServer.

Lemma read_task_ok fields r :
  read_task (JObj fields) = Ok r
  <-> r.1 = default JNull (assoc "id" fields)
      /\ exists mfields pfields ps,
           assoc "message" fields = Some (JObj mfields)
           /\ assoc "parts" mfields = Some (JArr (JObj pfields :: ps))
           /\ assoc "text" pfields = Some r.2.
Proof.
  unfold read_task. simpl.
  destruct (assoc "message" fields) as [msg|] eqn:Em; simpl.
  2:{ split; [done | intros (_ & ? & ? & ? & ? & _); done]. }
  destruct msg as [| | | |?|mfields]; simpl;
    try (split; [done | intros (_ & ? & ? & ? & ? & _); done]).
  destruct (assoc "parts" mfields) as [ps|] eqn:Ep; simpl.
  2:{ split; [done | intros (_ & ? & ? & ? & [= <-] & ? & _); congruence]. }
  destruct ps as [| | | s |items|?]; simpl;
    try (split; [done | intros (_ & ? & ? & ? & [= <-] & ? & _); congruence]).
  - destruct s; simpl; split; try done;
      intros (_ & ? & ? & ? & [= <-] & ? & _); congruence.
  - destruct items as [|p items]; simpl.
    { split; [done | intros (_ & ? & ? & ? & [= <-] & ? & _); congruence]. }
    destruct p as [| | | | |pfields]; simpl;
      try (split; [done | intros (_ & ? & ? & ? & [= <-] & ? & _); congruence]).
    destruct (assoc "text" pfields) as [t|] eqn:Et; simpl.
    + split.
      * intros [= <-]. simpl. split; [done|]. by exists mfields, pfields, items.
      * intros (Hid & mf & pf & ps & [= <-] & H2 & H3).
        rewrite Ep in H2. injection H2 as <- <-. rewrite Et in H3. injection H3 as H3.
        destruct r as [r1 r2]. simpl in *. by subst.
    + split; [done|]. intros (_ & mf & pf & ps & [= <-] & H2 & H3).
      rewrite Ep in H2. injection H2 as <- <-. congruence.
Qed.

(** On an object, whatever goes wrong in the [try] is one of the three
    exceptions the handler catches. *)
Lemma read_task_raise fields e :
  read_task (JObj fields) = Raise e -> is_caught e = true.
Proof.
  unfold read_task. simpl.
  destruct (assoc "message" fields) as [msg|]; simpl; [|by intros [= <-]].
  destruct msg as [| | | |?|mfields]; simpl; try by intros [= <-].
  destruct (assoc "parts" mfields) as [ps|]; simpl; [|by intros [= <-]].
  destruct ps as [| | | s |items|?]; simpl; try by intros [= <-].
  - destruct s; simpl; by intros [= <-].
  - destruct items as [|p items]; simpl; [by intros [= <-]|].
    destruct p as [| | | | |pfields]; simpl; try by intros [= <-].
    destruct (assoc "text" pfields); simpl; [done | by intros [= <-]].
Qed.

Lemma read_task_well_formed fields :
  well_formed fields <-> exists r, read_task (JObj fields) = Ok r.
Proof.
  split.
  - intros (mf & pf & ps & t & H1 & H2 & H3).
    exists (default JNull (assoc "id" fields), t). apply read_task_ok. simpl.
    split; [done|]. by exists mf, pf, ps.
  - intros [r Hr]. apply read_task_ok in Hr as (_ & mf & pf & ps & H1 & H2 & H3).
    by exists mf, pf, ps, r.2.
Qed.

(** X1: [handle_task] answers 200 exactly when the body is a JSON
    object that is a well-formed task (its message is an object whose
    parts are a list starting with an object that holds a text); it
    answers 400 with the body "Invalid task format" exactly when the body
    is an object that is not well formed; and when the body is anything
    but an object (null, a boolean, a number, a string, a list),
    [task.get] raises [AttributeError], which the handler does not catch:
    the exception leaves the view instead of a 400 answer. *)
Theorem handle_task_accepts_exactly_the_well_formed :
  forall (now : string) (task : json),
    ((exists fields, task = JObj fields /\ well_formed fields)
     <-> exists body, handle_task now task = Jsonify 200 body)
    /\ ((exists fields, task = JObj fields /\ ~ well_formed fields)
        <-> handle_task now task
            = Jsonify 400 (JObj [("error", JStr "Invalid task format")]))
    /\ ((forall fields, task <> JObj fields)
        <-> handle_task now task
            = Escapes (Exn AttributeError "object has no attribute 'get'")).
Proof.
  intros now task.
  destruct task as [| | | | |fields];
    try (split_and!; (split; [try done; by intros (? & ? & _) | try done; by intros [? ?]])).
  unfold handle_task.
  destruct (read_task (JObj fields)) as [[task_id user_message]|e] eqn:E.
  - assert (Hwf : well_formed fields) by (apply read_task_well_formed; eauto).
    apply read_task_ok in E as (_ & mf & pf & ps & H1 & _). simpl. rewrite H1.
    split_and!.
    + split; [eauto | intros _; eauto].
    + split; [by intros (f & [= <-] & Hn) | done].
    + split; [intros H; by destruct (H fields) | done].
  - assert (Hwf : ~ well_formed fields).
    { intros [r Hr]%read_task_well_formed. congruence. }
    rewrite (read_task_raise _ _ E). split_and!.
    + split; [by intros (f & [= <-] & ?) | by intros [? ?]].
    + split; [done | intros _; eauto].
    + split; [intros H; by destruct (H fields) | done].
Qed.

(** X2: whenever [handle_task] answers 200, the answer carries the id of
    the task (null when it has none), the state "completed", and exactly
    two messages: the message of the request, unchanged, and the agent's;
    the client script, reading that answer, prints the agent's text. *)
Theorem time_reply_reaches_the_client :
  forall (now : string) (task body : json),
    handle_task now task = Jsonify 200 body ->
    (exists fields msg,
        task = JObj fields /\ assoc "message" fields = Some msg
        /\ body = JObj [("task_id", default JNull (assoc "id" fields));
                        ("status", JObj [("state", JStr "completed")]);
                        ("messages", JArr [msg; agent_message ("The current time is: " ++ now)])])
    /\ read_reply 200 body = Says (JStr ("The current time is: " ++ now)).
Proof.
  intros now task body H.
  destruct task as [| | | | |fields]; try done.
  unfold handle_task in H.
  destruct (read_task (JObj fields)) as [[task_id user_message]|e] eqn:E.
  - apply read_task_ok in E as (Hid & mf & pf & ps & H1 & _). simpl in *.
    rewrite H1 in H. injection H as <-. subst task_id. split; [|done].
    by exists fields, (JObj mf).
  - by rewrite (read_task_raise _ _ E) in H.
Qed.

Lemma time_reply_reaches_the_client_witness :
  read_reply 200
    (JObj [("task_id", JStr "t1"); ("status", JObj [("state", JStr "completed")]);
           ("messages",
            JArr [JObj [("role", JStr "user"); ("parts", JArr [JObj [("text", JStr "What time is it?")]])];
                  agent_message "The current time is: 2024-01-15 14:30:25"])])
  = Says (JStr "The current time is: 2024-01-15 14:30:25").
Proof.
  exact (proj2 (time_reply_reaches_the_client "2024-01-15 14:30:25"
    (JObj [("id", JStr "t1");
           ("message", JObj [("role", JStr "user");
                             ("parts", JArr [JObj [("text", JStr "What time is it?")]])])])
    _ eq_refl)).
Defined.

End TimeServerProperties.

(** ** Loading the MCP tools *)

Section LoaderProperties.

Import MCPConnector MCPLoader.

Variable server_parameters : json -> json -> result (string * list string).
Variable list_tools : string -> list string -> option (list (string * string * json)).

Lemma fetch_from_usable servers tools :
  Forall (usable server_parameters) servers ->
  fetch_from server_parameters list_tools servers tools
  = Ok (tools ++ concat (map (tools_of_entry server_parameters list_tools) servers))%list.
Proof.
  intros H. revert tools. induction H as [|[name info] servers Hx _ IH]; intros tools; simpl.
  - by rewrite app_nil_r.
  - destruct Hx as (f & c & a & Hinfo & Hp). simpl in Hinfo. subst info.
    unfold tools_of_entry. simpl. rewrite Hp.
    destruct (list_tools c a) as [tool_list|]; rewrite IH; [|done].
    rewrite <- app_assoc. do 3 f_equal. apply map_ext. by intros [[n d] sch].
Qed.

(** X3: a connector built on a config file that is missing, is not
    JSON, does not hold an object, holds no "mcpServers" entry or an
    empty one, has no tools, and building it does not raise. *)
Theorem connector_without_servers_has_no_tools :
  (forall msg, connector_tools server_parameters list_tools
                 (Raise (Exn FileNotFoundError msg)) = Ok [])
  /\ (forall msg, connector_tools server_parameters list_tools
                    (Raise (Exn JSONDecodeError msg)) = Ok [])
  /\ (forall data, (forall config, data <> JObj config) ->
                   connector_tools server_parameters list_tools (Ok data) = Ok [])
  /\ (forall config, assoc "mcpServers" config = None ->
                     connector_tools server_parameters list_tools (Ok (JObj config)) = Ok [])
  /\ (forall config, assoc "mcpServers" config = Some (JObj []) ->
                     connector_tools server_parameters list_tools (Ok (JObj config)) = Ok []).
Proof.
  unfold connector_tools, MCPDiscovery.list_servers. split_and!; try done.
  - intros data Hdata. destruct data; try done. by destruct (Hdata fields).
  - intros config H. simpl. by rewrite H.
  - intros config H. simpl. by rewrite H.
Qed.

(** X4: when every configured server entry is usable, the tools of the
    connector are the tools the servers list, in the order of the config
    and of each listing: every one has the name, the description and the
    input schema its server declared and carries the command and the
    arguments of that server; a server whose listing fails contributes
    none and does not stop the others. *)
Theorem tools_are_those_of_the_servers_that_list :
  forall (servers : list (string * json)),
    Forall (usable server_parameters) servers ->
    _load_all_tools server_parameters list_tools (JObj servers)
    = Ok (concat (map (tools_of_entry server_parameters list_tools) servers))
    /\ (forall tool,
          In tool (concat (map (tools_of_entry server_parameters list_tools) servers)) ->
          exists entry info c a listing,
            In entry servers /\ entry.2 = JObj info
            /\ server_parameters (default JNull (assoc "command" info))
                                 (default (JArr []) (assoc "args" info)) = Ok (c, a)
            /\ list_tools c a = Some listing
            /\ In (tool_name tool, tool_description tool, input_schema tool) listing
            /\ server_cmd tool = c /\ server_args tool = a)
    /\ forall before entry after,
         servers = (before ++ entry :: after)%list ->
         (forall info c a,
            entry.2 = JObj info ->
            server_parameters (default JNull (assoc "command" info))
                              (default (JArr []) (assoc "args" info)) = Ok (c, a) ->
            list_tools c a = None ->
            _load_all_tools server_parameters list_tools (JObj servers)
            = _load_all_tools server_parameters list_tools (JObj (before ++ after)%list)).
Proof.
  intros servers H. split_and!.
  - simpl. by rewrite fetch_from_usable.
  - intros tool Hin. apply in_concat in Hin as (ts & Hts & Hin).
    apply in_map_iff in Hts as (entry & <- & Hentry).
    unfold tools_of_entry in Hin.
    destruct (entry.2) as [| | | | |info] eqn:Hinfo; try done.
    destruct (server_parameters _ _) as [[c a]|e] eqn:Hp; [|done].
    destruct (list_tools c a) as [listing|] eqn:Hl; [|done].
    apply in_map_iff in Hin as ([[n d] sch] & <- & Hin).
    by exists entry, info, c, a, listing.
  - intros before entry after -> info c a Hinfo Hp Hl.
    apply Forall_app in H as [Hb Ha]. inversion Ha as [|? ? He Ha']; subst.
    assert (Hall : Forall (usable server_parameters) (before ++ entry :: after)).
    { apply Forall_app. split; [done | by constructor]. }
    assert (Hrest : Forall (usable server_parameters) (before ++ after)).
    { apply Forall_app. by split. }
    simpl. rewrite (fetch_from_usable _ _ Hall), (fetch_from_usable _ _ Hrest).
    f_equal. rewrite !map_app, !concat_app. simpl. f_equal.
    unfold tools_of_entry at 1. by rewrite Hinfo, Hp, Hl.
Qed.

(** X5: a server entry that is not an object is fatal: once the entries
    before it have been gone through, [info.get] raises
    [AttributeError] outside the [try], whatever follows, and no
    connector is built. *)
Theorem server_entry_that_is_not_an_object_is_fatal :
  forall (before after : list (string * json)) (name : string) (info : json),
    Forall (usable server_parameters) before ->
    (forall fields, info <> JObj fields) ->
    _load_all_tools server_parameters list_tools (JObj (before ++ (name, info) :: after)%list)
    = Raise (Exn AttributeError "object has no attribute 'get'").
Proof.
  intros before after name info Hb Hinfo. simpl. generalize (@nil MCPTool).
  induction Hb as [|[n i] before Hx _ IH]; intros tools; simpl.
  - destruct info; try done. by destruct (Hinfo fields).
  - destruct Hx as (f & c & a & Hi & Hp). simpl in Hi. subst i. rewrite Hp.
    destruct (list_tools c a); apply IH.
Qed.

End LoaderProperties.

(** ** The filesystem tool server *)

Section FilesystemProperties.

Import FilesystemServer.

Context {FS : Type} (O : os FS).

Lemma list_items_lines path names fs :
  Forall (fun item => path_isdir O (path_join O path item) fs = false ->
                      is_ok (getsize O (path_join O path item) fs) = true) names ->
  list_items O path names fs = Ok (map (entry_line O path fs) names).
Proof.
  induction 1 as [|item names Hitem _ IH]; simpl; [done|].
  unfold entry_line at 1.
  destruct (path_isdir O (path_join O path item) fs).
  - by rewrite IH.
  - destruct (getsize O (path_join O path item) fs); [|by specialize (Hitem eq_refl)].
    simpl. by rewrite IH.
Qed.

(** X6: a call that names no declared tool, or that lacks the argument
    "path" (or, for write_file, the argument "content"), performs no
    operation on the file system: the state is returned as it was, with
    one text saying which tool is unknown or which argument is missing. *)
Theorem call_without_tool_or_argument_touches_nothing :
  forall (name : string) (arguments : gmap string string) (fs : FS),
    (name ∉ tool_names ->
       call_tool O name arguments fs = ([text_content ("Unknown tool: " ++ name)], fs))
    /\ (name ∈ tool_names -> arguments !! "path" = None ->
          call_tool O name arguments fs = ([text_content "Error: 'path'"], fs))
    /\ (name = "write_file" -> arguments !! "content" = None ->
          exists t, call_tool O name arguments fs = ([text_content t], fs)
                    /\ (t = "Error: 'path'" \/ t = "Error: 'content'")).
Proof.
  intros name arguments fs. unfold tool_names, call_tool, call_tool_body, argument.
  split_and!.
  - intros Hn. rewrite !elem_of_cons, elem_of_nil in Hn.
    repeat (rewrite bool_decide_eq_false_2 by tauto). done.
  - intros Hn Hp. rewrite Hp.
    repeat (case_bool_decide; [done|]).
    rewrite !elem_of_cons, elem_of_nil in Hn. tauto.
  - intros -> Hc. simpl. rewrite Hc.
    destruct (arguments !! "path"); eauto.
Qed.

(** X7: reading, listing or deleting a path that does not exist, and
    listing a path that is not a directory, leave the file system as it
    is and answer with one text that names the path. *)
Theorem missing_path_is_reported_and_nothing_changes :
  forall (arguments : gmap string string) (path : string) (fs : FS),
    arguments !! "path" = Some path ->
    (path_exists O path fs = false ->
       call_tool O "read_file" arguments fs
       = ([text_content ("Error: File '" ++ path ++ "' does not exist")], fs)
       /\ call_tool O "list_directory" arguments fs
          = ([text_content ("Error: Directory '" ++ path ++ "' does not exist")], fs)
       /\ call_tool O "delete_file" arguments fs
          = ([text_content ("Error: Path '" ++ path ++ "' does not exist")], fs))
    /\ (path_exists O path fs = true -> path_isdir O path fs = false ->
          call_tool O "list_directory" arguments fs
          = ([text_content ("Error: '" ++ path ++ "' is not a directory")], fs)).
Proof.
  intros arguments path fs Hp. unfold call_tool, call_tool_body, argument.
  simpl. rewrite Hp. split.
  - by intros ->.
  - by intros -> ->.
Qed.

(** X8: whatever the operating system does, [call_tool] returns exactly
    one content item, of type "text": a failure of the file system is
    reported in that text and never leaves the call as an exception. *)
Theorem call_tool_returns_one_text :
  forall (name : string) (arguments : gmap string string) (fs : FS),
    exists t, (call_tool O name arguments fs).1 = [text_content t].
Proof.
  intros name arguments fs. unfold call_tool, call_tool_body.
  repeat case_bool_decide;
    repeat match goal with
      | |- context [argument ?a ?k] => destruct (argument a k)
      | |- context [negb ?b] => destruct b; simpl
      | |- context [if ?b then _ else _] => destruct b; simpl
      | |- context [makedirs O ?p ?f] => destruct (makedirs O p f) as [[?|?] ?]
      | |- context [write_text O ?p ?c ?f] => destruct (write_text O p c f) as [[?|?] ?]
      | |- context [rmtree O ?p ?f] => destruct (rmtree O p f) as [[?|?] ?]
      | |- context [remove O ?p ?f] => destruct (remove O p f) as [[?|?] ?]
      | |- context [read_text O ?p ?f] => destruct (read_text O p f); simpl
      | |- context [listdir O ?p ?f] => destruct (listdir O p f); simpl
      | |- context [list_items O ?p ?n ?f] => destruct (list_items O p n f); simpl
      end;
    simpl; eauto.
Qed.

(** X9: listing an existing directory whose entries can all be sized
    returns one line per entry, in the order of [os.listdir], joined by
    newlines: "[DIR]  name" for a directory and "[FILE] name (n bytes)"
    for anything else; the file system is left as it is. *)
Theorem list_directory_lists_every_entry :
  forall (arguments : gmap string string) (path : string) (names : list string) (fs : FS),
    arguments !! "path" = Some path ->
    path_exists O path fs = true ->
    path_isdir O path fs = true ->
    listdir O path fs = Ok names ->
    Forall (fun item => path_isdir O (path_join O path item) fs = false ->
                        is_ok (getsize O (path_join O path item) fs) = true) names ->
    call_tool O "list_directory" arguments fs
    = ([text_content (String.concat newline (map (entry_line O path fs) names))], fs).
Proof.
  intros arguments path names fs Hp He Hd Hl Hs.
  unfold call_tool, call_tool_body, argument. simpl.
  rewrite Hp, He, Hd, Hl. simpl. by rewrite (list_items_lines _ _ _ Hs).
Qed.

End FilesystemProperties.

(** ** The streaming agent and its executor (level 5) *)

Section StreamingProperties.

Import StreamingAgent TellTimeAgentExecutor.

(** X10: the final response of the agent closes the exchange in exactly
    one way: it is marked complete exactly when the structured response
    has status "completed", and asks for user input in every other case
    (status "input_required" or "error", any other status, or no
    structured response at all); a status "error" is reported with the
    model's own message, as a request for input. *)
Theorem final_response_completes_or_asks :
  forall (s : structured),
    (is_task_complete (_final_response s) = true
     <-> exists message, s = ResponseFormat "completed" message)
    /\ require_user_input (_final_response s) = negb (is_task_complete (_final_response s))
    /\ (forall message,
          _final_response (ResponseFormat "error" message)
          = {| is_task_complete := false; require_user_input := true; content := message |}).
Proof.
  intros s. split_and!.
  - destruct s as [status message|]; simpl.
    + case_bool_decide as Hc.
      * subst. simpl. split; eauto.
      * split.
        -- destruct (_ || _); done.
        -- intros [m [= ? ?]]. done.
    + split; [done | by intros [? ?]].
  - destruct s as [status message|]; simpl; [|done].
    case_bool_decide; [done|]. by destruct (_ || _).
  - done.
Qed.

Lemma final_response_flags s :
  require_user_input (_final_response s) = negb (is_task_complete (_final_response s)).
Proof.
  destruct s as [status message|]; simpl; [|done].
  case_bool_decide; [done|]. by destruct (_ || _).
Qed.

Lemma progress_is_working task m e :
  progress m = Some e -> exists text, on_event task e
    = [StatusUpdate (id task) (contextId task) working (Some text) false].
Proof. destruct m; intros [= <-]; simpl; eauto. Qed.

Lemma on_progress_events task items :
  Forall (is_working_update task) (concat (map (on_event task) (omap progress items))).
Proof.
  induction items as [|m items IH]; simpl; [constructor|].
  destruct (progress m) as [e|] eqn:E; simpl; [|done].
  destruct (progress_is_working task m e E) as [text ->]. simpl.
  constructor; [by exists text | done].
Qed.

(** X11: a run of the executor on the agent's stream enqueues, after the
    new task when the context has none, only non-final "working"
    updates, at most one per step of the graph, and then closes with the
    events of the final response: the result artifact followed by the
    final "completed" update, or one final "input_required" update that
    carries the message. One final event is enqueued, and it is the last;
    every event bears the id and context id of the task. Without a
    message the executor raises and enqueues nothing. *)
Theorem execute_ends_with_the_one_final_event :
  forall (new_task : task_ref) (items : list last_message) (s : structured)
         (context : RequestContext) (queue : list queue_event),
    let run := execute new_task (fun _ _ => stream items s) context queue in
    let task := default new_task (current_task context) in
    (has_message context = false -> run = (NoMessageProvided, queue))
    /\ (has_message context = true ->
        exists updates,
          run = (Returns,
                 queue ++ match current_task context with Some _ => [] | None => [NewTask new_task] end
                       ++ updates ++ on_event task (_final_response s))%list
          /\ Forall (is_working_update task) updates
          /\ Forall (fun e => is_final e = false) updates
          /\ (length updates <= length items)%nat
          /\ (is_final <$> last (on_event task (_final_response s))) = Some true
          /\ (on_event task (_final_response s)
              = [ ArtifactUpdate (id task) (contextId task) "current_result"
                    "Result of request to agent." (content (_final_response s)) false true;
                  StatusUpdate (id task) (contextId task) completed None true ]
              \/ on_event task (_final_response s)
                 = [ StatusUpdate (id task) (contextId task) input_required
                       (Some (content (_final_response s))) true ])).
Proof.
  intros new_task items s context queue run task. subst run task. unfold execute.
  split; [by intros -> | intros ->]. cbn [negb].
  exists (concat (map (on_event (default new_task (current_task context)))
                      (omap progress items))).
  pose proof (on_progress_events (default new_task (current_task context)) items) as Hw.
  split_and!.
  - unfold stream.
    destruct (current_task context); simpl;
      rewrite List.map_app, List.concat_app; simpl; rewrite app_nil_r; [done|].
    by rewrite <- app_assoc.
  - done.
  - eapply Forall_impl; [exact Hw|]. by intros e [text ->].
  - clear Hw. induction items as [|m items IH]; simpl; [done|].
    destruct (progress m) as [e|] eqn:E; simpl.
    + destruct (progress_is_working (default new_task (current_task context)) m e E)
        as [text ->].
      simpl. apply le_n_S, IH.
    + apply le_S, IH.
  - unfold on_event. rewrite final_response_flags.
    by destruct (is_task_complete (_final_response s)).
  - unfold on_event. rewrite final_response_flags.
    destruct (is_task_complete (_final_response s)); eauto.
Qed.

End StreamingProperties.

(** ** The reply made of the runner's events *)

Section ReplyProperties.

Import RunnerReply.

Lemma concat_empty sep (l : list string) :
  Forall (fun s => s <> "") l -> String.concat sep l = "" -> l = [].
Proof.
  intros H. destruct H as [|x l Hx Hl]; [done|]. simpl.
  destruct l; [done|]. destruct x; [done | discriminate].
Qed.

Lemma omap_has_text_nonempty ps : Forall (fun s => s <> "") (omap has_text ps).
Proof.
  induction ps as [|[s|] ps IH]; simpl; [constructor | | done].
  case_bool_decide; [done|]. by constructor.
Qed.

(** X12: the reply of [invoke] is made of the last event only, whatever
    events came before it, and it is the empty string exactly when there
    is no event or the last event has no part with a non-empty text. *)
Theorem reply_is_the_text_of_the_last_event :
  forall (events : list Event) (e : Event),
    reply_of (events ++ [e]) = reply_of [e]
    /\ reply_of [] = ""
    /\ (reply_of [e] = ""
        <-> omap has_text (default [] (event_parts e)) = []).
Proof.
  intros events e. unfold reply_of. rewrite last_snoc. simpl. split_and!; try done.
  destruct (event_parts e) as [[|p ps]|]; simpl; try done. split.
  - apply concat_empty, (omap_has_text_nonempty (p :: ps)).
  - simpl. by intros ->.
Qed.

End ReplyProperties.

(** ** The history of a session *)

Section HistoryProperties.

Import AgentTaskManager TaskHistory.

Lemma task_of_upsert p tm sid :
  consistent tm ->
  task_of (upsert_task p tm).2 sid
  = if bool_decide (sessionId p = sid) then Some (default (fresh sid) (task_of tm sid))
    else task_of tm sid.
Proof.
  intros Hc. unfold task_of.
  destruct (_tasks tm !! sessionId p) as [l|] eqn:E.
  - rewrite (upsert_task_seen _ _ _ E). case_bool_decide as Hs; [|done].
    subst sid. simpl. rewrite E. simpl.
    destruct (entry_allocated _ Hc _ _ E) as (t & -> & _). done.
  - rewrite (upsert_task_unseen _ _ E). simpl. case_bool_decide as Hs.
    + subst sid. rewrite lookup_insert_eq, E. simpl.
      by rewrite lookup_app_r, Nat.sub_diag by lia.
    + rewrite lookup_insert_ne by done.
      destruct (_tasks tm !! sid) as [l|] eqn:E'; simpl; [|done].
      destruct (entry_allocated _ Hc _ _ E') as (t & Ht & _).
      rewrite Ht. by apply lookup_app_l_Some.
Qed.

Lemma task_of_complete reply l s tm sid :
  consistent tm -> _tasks tm !! s = Some l ->
  task_of {| objs := alter (complete_with reply) l (objs tm); _tasks := _tasks tm |} sid
  = if bool_decide (s = sid) then complete_with reply <$> task_of tm sid else task_of tm sid.
Proof.
  intros Hc Hl. unfold task_of. simpl. case_bool_decide as Hs.
  - subst sid. rewrite Hl. simpl. apply list_lookup_alter_eq.
  - destruct (_tasks tm !! sid) as [l'|] eqn:E'; simpl; [|done].
    apply list_lookup_alter_ne. intros <-.
    destruct (entry_allocated _ Hc _ _ E') as (t & Ht & Hid).
    destruct (entry_allocated _ Hc _ _ Hl) as (t' & Ht' & Hid').
    congruence.
Qed.

Lemma task_of_step c tm sid :
  consistent tm ->
  task_of (step c tm) sid
  = if bool_decide (session c = sid) then
      Some (match reply c with
            | Some r => complete_with (agent_reply r) (default (fresh sid) (task_of tm sid))
            | None => default (fresh sid) (task_of tm sid)
            end)
    else task_of tm sid.
Proof.
  intros Hc. destruct c as [p | agent request]; simpl.
  - by apply task_of_upsert.
  - pose proof (task_of_upsert (params request) tm sid Hc) as Hu.
    pose proof (consistent_upsert (params request) tm Hc) as Hc1.
    pose proof (upsert_task_registers (params request) tm) as Hreg.
    unfold on_send_task, _get_user_query.
    destruct (upsert_task (params request) tm) as [l tm1]. simpl in *.
    destruct (first_part_text request) as [query|e]; simpl; [|done].
    destruct (agent query (sessionId (params request))) as [r|e]; simpl; [|done].
    rewrite (task_of_complete _ _ _ _ _ Hc1 Hreg), Hu.
    by case_bool_decide.
Qed.

(** X13: serving a call changes the task of no session but its own:
    after any calls, one more call leaves the task of every other
    session exactly as it was, whether that call succeeds or fails. *)
Theorem a_call_touches_only_its_session :
  forall (cs : list call) (c : call) (sid : string),
    session c <> sid ->
    task_of (step c (run cs init)) sid = task_of (run cs init) sid.
Proof.
  intros cs c sid Hne.
  rewrite (task_of_step c _ sid (consistent_run cs init consistent_init)).
  by rewrite bool_decide_eq_false_2.
Qed.

Lemma run_snoc cs c tm : run (cs ++ [c]) tm = step c (run cs tm).
Proof. unfold run. by rewrite fold_left_app. Qed.

Lemma replies_snoc cs c sid :
  replies (cs ++ [c]) sid
  = (replies cs sid
     ++ if bool_decide (session c = sid) then option_list (reply c) else [])%list.
Proof.
  unfold replies. rewrite omap_app. f_equal. simpl.
  case_bool_decide; [|done]. by destruct (reply c).
Qed.

Lemma seen_snoc cs c sid :
  seen (cs ++ [c]) sid = seen cs sid || bool_decide (session c = sid).
Proof. unfold seen. rewrite existsb_app. simpl. by rewrite orb_false_r. Qed.

Lemma replies_unseen cs sid : seen cs sid = false -> replies cs sid = [].
Proof.
  unfold seen, replies. induction cs as [|c cs IH]; simpl; [done|].
  intros [Hc Hcs]%orb_false_elim. rewrite Hc. by apply IH.
Qed.

(** The task of a session after any calls, in closed form. *)
Lemma task_of_run cs sid : task_of (run cs init) sid = task_after cs sid.
Proof.
  induction cs as [|c cs IH] using rev_ind; [done|].
  rewrite run_snoc, (task_of_step c _ sid (consistent_run cs init consistent_init)), IH.
  unfold task_after. rewrite seen_snoc, replies_snoc.
  case_bool_decide as Hs.
  - rewrite orb_true_r. f_equal.
    destruct (seen cs sid) eqn:Eseen; simpl; destruct (reply c) as [r|]; simpl.
    + unfold complete_with. simpl. f_equal.
      * by destruct (replies cs sid).
      * by rewrite List.map_app.
    + by rewrite app_nil_r.
    + unfold complete_with, fresh. simpl.
      by rewrite (replies_unseen cs sid).
    + by rewrite (replies_unseen cs sid).
  - rewrite orb_false_r, app_nil_r. done.
Qed.

(** X14: the task a manager holds for a session is determined by the
    calls it has served: there is one exactly when some call named the
    session; its history is the agent's replies to the requests of that
    session that had a first part and that the agent answered, in the
    order of the calls, and nothing else (the user's messages are not
    kept); it is pending while that history is empty and completed from
    the first reply on. *)
Theorem task_is_the_record_of_the_replies :
  forall (cs : list call) (sid : string),
    (task_of (run cs init) sid = None <-> seen cs sid = false)
    /\ (forall t, task_of (run cs init) sid = Some t ->
          task_id t = sid
          /\ history t = map agent_reply (replies cs sid)
          /\ length (history t) = length (replies cs sid)
          /\ (status t = PENDING <-> history t = [])
          /\ (status t = COMPLETED <-> history t <> [])).
Proof.
  intros cs sid. rewrite task_of_run. unfold task_after.
  destruct (seen cs sid); split; try done.
  intros t [= <-]. simpl. split_and!; try done.
  - by rewrite length_map.
  - destruct (replies cs sid); simpl; split; done.
  - destruct (replies cs sid); simpl; split; done.
Qed.

End HistoryProperties.

(** ** The well-known URL of a source *)

Section UrlProperties.

Import DiscoveryClient Wire.

Lemma rstrip_slash_app_slash s : rstrip_slash (s ++ "/") = rstrip_slash s.
Proof. induction s as [|c s IH]; simpl; [done|]. by rewrite IH. Qed.

Lemma rstrip_slash_no_trailing_slash s t : rstrip_slash s <> t ++ "/".
Proof.
  revert t. induction s as [|c s IH]; intros t; simpl.
  - by destruct t.
  - destruct (rstrip_slash s) as [|a r] eqn:E.
    + case_bool_decide as Hc; [by destruct t|].
      destruct t as [|b [|? ?]]; simpl; intros H; injection H; intros; try done; congruence.
    + destruct t as [|b t]; simpl; [done|].
      intros [= -> H]. by apply (IH t).
Qed.

Lemma rstrip_slash_decompose s : exists n, s = rstrip_slash s ++ slashes n.
Proof.
  induction s as [|c s [n IH]]; simpl; [by exists 0%nat|].
  destruct (rstrip_slash s) as [|a r] eqn:E.
  - case_bool_decide as Hc.
    + subst c. exists (S n). change (String "/" s = String "/" (slashes n)).
      f_equal. exact IH.
    + exists n. change (String c s = String c (slashes n)). f_equal. exact IH.
  - exists n. change (String c s = String c (String a r ++ slashes n)).
    f_equal. exact IH.
Qed.

Lemma app_slash_slashes s n : (s ++ "/") ++ slashes n = s ++ slashes (S n).
Proof.
  induction s as [|c s IH]; [done|].
  change (String c ((s ++ "/") ++ slashes n) = String c (s ++ slashes (S n))).
  f_equal. exact IH.
Qed.

Lemma app_empty_string s : s ++ "" = s.
Proof.
  induction s as [|c s IH]; [done|].
  change (String c (s ++ "") = String c s). f_equal. exact IH.
Qed.

Lemma rstrip_slash_app_slashes s n : rstrip_slash (s ++ slashes n) = rstrip_slash s.
Proof.
  revert s. induction n as [|n IH]; intros s.
  - simpl. by rewrite app_empty_string.
  - by rewrite <- app_slash_slashes, IH, rstrip_slash_app_slash.
Qed.

(** X17: the metadata URL of a source does not depend on the slashes its
    base URL ends with: [rstrip] takes all of them off and nothing else,
    so the path ".well-known/agent.json" always follows a single slash
    after a base that does not end in one. *)
Theorem well_known_ignores_trailing_slashes :
  forall (base_url : string),
    (forall n, well_known (base_url ++ slashes n) = well_known base_url)
    /\ (exists n, base_url = rstrip_slash base_url ++ slashes n)
    /\ (forall t, rstrip_slash base_url <> t ++ "/")
    /\ well_known base_url = rstrip_slash base_url ++ "/.well-known/agent.json".
Proof.
  intros base_url. split_and!.
  - intros n. unfold well_known. by rewrite rstrip_slash_app_slashes.
  - apply rstrip_slash_decompose.
  - apply rstrip_slash_no_trailing_slash.
  - done.
Qed.

End UrlProperties.

(** ** A delegated call, from the greeting agent to the tell-time server *)

Section EndToEnd.

Import AgentTaskManager TaskHistory A2AServer Wire.


Lemma served_task M dump agent cs body rq msg answer :
  A2ARequest_validate M body = Ok (IsSendTaskRequest rq) ->
  parts (message (params rq)) = [ {| text := msg |} ] ->
  agent msg (sessionId (params rq)) = Ok answer ->
  let served := handle_request (tell_time_on_send_task dump agent) M body (run cs init) in
  let task := {| task_id := sessionId (params rq); status := COMPLETED;
                 history := map agent_reply (replies cs (sessionId (params rq)) ++ [answer]) |} in
  task_of served.2 (sessionId (params rq)) = Some task
  /\ exists content,
       served.1 = JSONResponse 200 content
       /\ json_getitem content "result" = Ok (dump task).
Proof.
  intros Hv Hp Ha served task. subst served task.
  pose proof (task_of_run (cs ++ [SendTask agent rq]) (sessionId (params rq))) as Hrec.
  rewrite run_snoc in Hrec. unfold task_after in Hrec.
  rewrite seen_snoc, replies_snoc in Hrec. simpl in Hrec.
  rewrite bool_decide_eq_true_2, orb_true_r in Hrec by done.
  unfold first_part_text in Hrec. rewrite Hp in Hrec. simpl in Hrec.
  rewrite Ha in Hrec. simpl in Hrec.
  assert (Hst : match (replies cs (sessionId (params rq)) ++ [answer])%list with
                | [] => PENDING | _ => COMPLETED end = COMPLETED).
  { by destruct (replies cs (sessionId (params rq))). }
  rewrite Hst in Hrec. clear Hst.
  unfold handle_request. rewrite Hv. unfold tell_time_on_send_task.
  unfold task_of in Hrec.
  assert (Hl : exists l, (on_send_task agent rq (run cs init)).1
                         = Ok {| response_id := request_id rq; result_task := l |}
                         /\ _tasks (on_send_task agent rq (run cs init)).2
                              !! sessionId (params rq) = Some l).
  { pose proof (upsert_task_registers (params rq) (run cs init)) as Hreg.
    unfold on_send_task, _get_user_query, first_part_text. rewrite Hp.
    destruct (upsert_task (params rq) (run cs init)) as [l s1]. simpl in *.
    rewrite Ha. simpl. by exists l. }
  destruct Hl as (l & Hres & Hl).
  destruct (on_send_task agent rq (run cs init)) as [r tm1]. simpl in *. subst r.
  rewrite Hl in Hrec. simpl in Hrec. simpl. rewrite Hrec. simpl.
  split.
  - unfold task_of. rewrite Hl. simpl. exact Hrec.
  - eexists. split; reflexivity.
Qed.

(** X15: a connector call whose request the tell-time server handles,
    and whose 200 answer the network hands back as it is, returns the
    task the server holds for the session: completed, its history the
    earlier replies of the session followed by the agent's answer to this
    message. Out of that task [call_agent] of the greeting agent takes
    the answer; [_delegate_task] of the orchestrator takes the answer
    too, except on the first exchange of a session, where the history has
    one entry and it takes the empty string. *)
Theorem connector_call_returns_the_servers_task :
  forall (M : models) (dump : Task -> json) (agent : string -> string -> result string)
         (cs : list call) (body : string) (conn : AgentConnector) (msg sid : string)
         (w : world) (answer : string),
    let rq := (AgentConnectorM.request_sent conn msg sid w).2 in
    let served := handle_request (tell_time_on_send_task dump agent) M body (run cs init) in
    let task := {| task_id := sid; status := COMPLETED;
                   history := map agent_reply (replies cs sid ++ [answer]) |} in
    A2ARequest_validate M body = Ok (IsSendTaskRequest rq) ->
    agent msg sid = Ok answer ->
    carried served.1 (net w (length (posted w))) ->
    Task_validate M (dump task) = Ok task ->
    task_of served.2 sid = Some task
    /\ (AgentConnectorM.send_task M conn msg sid w).1 = Ok task
    /\ GreetingAgent.final_reply task = answer
    /\ OrchestratorAgent.final_reply task
       = Ok (match replies cs sid with [] => "" | _ => answer end).
Proof.
  intros M dump agent cs body conn msg sid w answer rq served task Hv Ha Hnet Hrt.
  destruct (served_task M dump agent cs body rq msg answer Hv eq_refl Ha)
    as (Htask & content & Hserved & Hresult).
  fold served in Htask, Hserved. simpl in Htask, Hresult. fold task in Htask, Hresult.
  split_and!.
  - done.
  - rewrite send_task_result. rewrite Hserved in Hnet. simpl in Hnet. rewrite Hnet.
    unfold A2AClient.handle_outcome. simpl.
    unfold A2AClient.task_of_response. rewrite Hresult. simpl. done.
  - unfold GreetingAgent.final_reply, task. cbn [history].
    rewrite List.map_app. cbn [List.map]. by rewrite last_snoc.
  - unfold OrchestratorAgent.final_reply, task. cbn [history].
    destruct (replies cs sid) as [|r rs]; [done|].
    rewrite bool_decide_eq_true_2 by done.
    replace (1 <? _)%nat with true.
    + rewrite List.map_app. cbn [List.map]. by rewrite last_snoc.
    + symmetry. apply Nat.ltb_lt. rewrite length_map, length_app. simpl. lia.
Qed.

End EndToEnd.

(** ** Witnesses *)

Lemma tools_are_those_of_the_servers_that_list_witness :
  MCPLoader._load_all_tools Samples.server_parameters Samples.list_tools
    (JObj [Samples.fs_entry; Samples.down_entry])
  = Ok [ {| MCPConnector.tool_name := "read_file";
            MCPConnector.tool_description := "Read the contents of a file";
            MCPConnector.input_schema := JObj [];
            MCPConnector.server_cmd := "python";
            MCPConnector.server_args := ["filesystem_server.py"] |};
         {| MCPConnector.tool_name := "write_file";
            MCPConnector.tool_description := "Write content to a file";
            MCPConnector.input_schema := JObj [];
            MCPConnector.server_cmd := "python";
            MCPConnector.server_args := ["filesystem_server.py"] |} ].
Proof.
  refine (proj1 (tools_are_those_of_the_servers_that_list
                   Samples.server_parameters Samples.list_tools
                   [Samples.fs_entry; Samples.down_entry] _)).
  repeat constructor.
  - exists [("command", JStr "python"); ("args", JArr [JStr "filesystem_server.py"])],
      "python", ["filesystem_server.py"]. split; reflexivity.
  - exists [("command", JStr "missing")], "missing", []. split; reflexivity.
Defined.

Lemma server_entry_that_is_not_an_object_is_fatal_witness :
  MCPLoader._load_all_tools Samples.server_parameters Samples.list_tools
    (JObj [Samples.fs_entry; ("broken", JStr "python"); Samples.down_entry])
  = Raise (Exn AttributeError "object has no attribute 'get'").
Proof.
  refine (server_entry_that_is_not_an_object_is_fatal
            Samples.server_parameters Samples.list_tools
            [Samples.fs_entry] [Samples.down_entry] "broken" (JStr "python") _ _).
  - repeat constructor.
    exists [("command", JStr "python"); ("args", JArr [JStr "filesystem_server.py"])],
      "python", ["filesystem_server.py"]. split; reflexivity.
  - intros fields. discriminate.
Defined.

Lemma missing_path_is_reported_and_nothing_changes_witness :
  FilesystemServer.call_tool Samples.small_os "read_file" {["path" := "nowhere"]} Samples.docs
  = ([FilesystemServer.text_content "Error: File 'nowhere' does not exist"], Samples.docs).
Proof.
  refine (proj1 (proj1 (missing_path_is_reported_and_nothing_changes
                          Samples.small_os {["path" := "nowhere"]} "nowhere" Samples.docs _)
                   _)).
  - reflexivity.
  - vm_compute. reflexivity.
Defined.

Lemma list_directory_lists_every_entry_witness :
  FilesystemServer.call_tool Samples.small_os "list_directory" {["path" := "docs"]}
    Samples.docs
  = ([FilesystemServer.text_content
        ("[FILE] a.txt (5 bytes)" ++ FilesystemServer.newline ++ "[DIR]  sub")],
     Samples.docs).
Proof.
  refine (list_directory_lists_every_entry Samples.small_os {["path" := "docs"]} "docs"
            ["a.txt"; "sub"] Samples.docs _ _ _ _ _).
  - reflexivity.
  - vm_compute. reflexivity.
  - vm_compute. reflexivity.
  - vm_compute. reflexivity.
  - constructor; [intros _; vm_compute; reflexivity|].
    constructor; [intros H; vm_compute in H; discriminate H|].
    constructor.
Defined.

Lemma a_call_touches_only_its_session_witness :
  AgentTaskManager.task_of
    (AgentTaskManager.step (AgentTaskManager.Upsert (params (Demo.request_of "r" "s2" (Demo.user_says "hi"))))
       (AgentTaskManager.run [AgentTaskManager.SendTask Demo.clock Demo.ask_time]
          AgentTaskManager.init)) "s1"
  = AgentTaskManager.task_of
      (AgentTaskManager.run [AgentTaskManager.SendTask Demo.clock Demo.ask_time]
         AgentTaskManager.init) "s1".
Proof.
  refine (a_call_touches_only_its_session
            [AgentTaskManager.SendTask Demo.clock Demo.ask_time]
            (AgentTaskManager.Upsert (params (Demo.request_of "r" "s2" (Demo.user_says "hi"))))
            "s1" _).
  simpl. discriminate.
Defined.


Lemma connector_call_returns_the_servers_task_witness :
  (AgentConnectorM.send_task Samples.wire_models (connector_of Demo.tell_time_card)
     "What time is it?" "greeting_user" Samples.answered_world).1
  = Ok {| task_id := "greeting_user"; status := COMPLETED;
          history := [agent_reply "10:30"] |}.
Proof.
  refine (proj1 (proj2 (connector_call_returns_the_servers_task
                          Samples.wire_models Demo.task_json Demo.clock [] "body"
                          (connector_of Demo.tell_time_card) "What time is it?"
                          "greeting_user" Samples.answered_world "10:30" _ _ _ _))).
  - reflexivity.
  - reflexivity.
  - reflexivity.
  - reflexivity.
Defined.
